(** * Image-Finder-Mouse-Keyboard: the automation control core

    A shallow embedding of [auto_mouse_keyboard_finder_v5_actions_ui_perfect.py]
    (the [ActionItem] record, the authoring and persistence operations of
    [App], the detection cycle, the action executor, the hotkey scope
    handling and the start/stop protocol of the automation worker; the
    editing of the action list, the action table and the search region) and
    of the text input and the dropdown of [ui_components.py], followed by
    the properties of the specification that concern them and by further
    properties of the code.

    Conventions of the embedding.
    - Python values that reach the program from files or from the [params]
      dictionary are kept dynamically typed ([pyval]); a [dict] keeps its
      insertion order, which iteration observes, so it is the list of its
      items.
    - Python [float]s are the IEEE-754 values of [spec_float]; Python [int]s
      are [Z].
    - Python [str]s are [string]s of ASCII characters.
    - An exception is a value of [pyexc]; code that may raise returns a
      [result].
    - An f-string is kept as the list of its fragments ([message]). *)

From Stdlib Require Import ZArith Bool List String Ascii Lia.
From Stdlib Require Import Floats.SpecFloat.
From stdpp Require Import base option list gmap strings.

#[local] Set Warnings "-register-all".
#[local] Open Scope string_scope.
#[local] Open Scope list_scope.
#[local] Open Scope Z_scope.

(* ===================================================================== *)
(** * Part I. Definitions                                                  *)
(* ===================================================================== *)

(** ** Python values, exceptions and the builtins the program calls *)

Inductive pyval : Type :=
  | VNone
  | VBool (b : bool)
  | VInt (z : Z)
  | VFloat (f : spec_float)
  | VStr (s : string)
  | VList (l : list pyval)
  | VDict (d : list (string * pyval)).

Inductive pyexc : Type :=
  | TypeError
  | ValueError
  | AttributeError
  | OverflowError
  | JSONDecodeError
  | CollaboratorError (what : string).

Inductive result (A : Type) : Type :=
  | Ok (a : A)
  | Raise (e : pyexc).

Arguments Ok {A} a.
Arguments Raise {A} e.

(** Sequencing of code that may raise: [x ← r; k] runs [k] on the value of
    [r] and propagates its exception. *)
#[export] Instance result_bind : MBind result := λ A B k r,
  match r with
  | Ok a => k a
  | Raise e => Raise e
  end.

#[export] Instance result_ret : MRet result := λ A a, Ok a.

(** Fragments of an f-string: literal text and the interpolated values. *)
Inductive fragment : Type :=
  | Lit (s : string)
  | ShowStr (s : string)
  | ShowInt (z : Z)
  | ShowVal (v : pyval)
  | ShowPercent (f : spec_float)
  | ShowExc (e : pyexc).

Definition message : Type := list fragment.

(** [bool(v)]: Python truthiness. *)
Definition truthy (v : pyval) : bool :=
  match v with
  | VNone => false
  | VBool b => b
  | VInt z => negb (z =? 0)
  | VFloat f =>
      match f with
      | S754_zero _ => false
      | _ => true
      end
  | VStr s => negb (String.eqb s "")
  | VList l => match l with [] => false | _ => true end
  | VDict d => match d with [] => false | _ => true end
  end.

(** [str.isspace] on ASCII characters. *)
Definition is_space (c : ascii) : bool :=
  let n := nat_of_ascii c in
  (((9 <=? n) && (n <=? 13)) || ((28 <=? n) && (n <=? 32)))%nat.

Fixpoint lstrip_chars (l : list ascii) : list ascii :=
  match l with
  | [] => []
  | c :: l' => if is_space c then lstrip_chars l' else l
  end.

(** [s.strip()]. *)
Definition strip (s : string) : string :=
  string_of_list_ascii
    (rev (lstrip_chars (rev (lstrip_chars (list_ascii_of_string s))))).

Definition is_digit (c : ascii) : bool :=
  let n := nat_of_ascii c in ((48 <=? n) && (n <=? 57))%nat.

Definition digit_value (c : ascii) : Z := Z.of_nat (nat_of_ascii c) - 48.

(** Decimal digits, a single underscore allowed between two digits. *)
Fixpoint digits_value (acc : Z) (after_digit : bool) (l : list ascii) : option Z :=
  match l with
  | [] => if after_digit then Some acc else None
  | c :: l' =>
      if is_digit c then digits_value (10 * acc + digit_value c) true l'
      else if Ascii.eqb c "_"%char && after_digit then digits_value acc false l'
      else None
  end.

(** The white space [int] skips around a numeral in an ASCII [str]
    ([Py_ISSPACE]): unlike [str.strip] it does not skip the separators 28
    to 31. *)
Definition is_c_space (c : ascii) : bool :=
  let n := nat_of_ascii c in
  (((9 <=? n) && (n <=? 13)) || (n =? 32))%nat.

Fixpoint skip_c_space (l : list ascii) : list ascii :=
  match l with
  | [] => []
  | c :: l' => if is_c_space c then skip_c_space l' else l
  end.

(** The limit on the digits of a numeral [int] converts
    ([sys.get_int_max_str_digits()], 4300 unless configured, CPython 3.11
    and later); the sign and the underscores do not count. *)
Definition INT_MAX_STR_DIGITS : Z := 4300.

(** [int(s)] for a [str]: surrounding white space, an optional sign,
    decimal digits, no more of them than the limit. [None] stands for the
    [ValueError]. *)
Definition int_of_str (s : string) : option Z :=
  let l := rev (skip_c_space (rev (skip_c_space (list_ascii_of_string s)))) in
  if INT_MAX_STR_DIGITS <? Z.of_nat (length (List.filter is_digit l)) then None
  else
    match l with
    | [] => None
    | c :: l' =>
        if Ascii.eqb c "-"%char then Z.opp <$> digits_value 0 false l'
        else if Ascii.eqb c "+"%char then digits_value 0 false l'
        else digits_value 0 false (c :: l')
    end.

(** [int(f)] for a [float]: truncation toward zero. *)
Definition int_of_float (f : spec_float) : result Z :=
  match f with
  | S754_zero _ => Ok 0
  | S754_infinity _ => Raise OverflowError
  | S754_nan => Raise ValueError
  | S754_finite s m e => Ok (cond_Zopp s (Z.shiftl (Zpos m) e))
  end.

(** [int(v)]. *)
Definition py_int (v : pyval) : result Z :=
  match v with
  | VInt z => Ok z
  | VBool b => Ok (Z.b2z b)
  | VFloat f => int_of_float f
  | VStr s => match int_of_str s with Some z => Ok z | None => Raise ValueError end
  | VNone | VList _ | VDict _ => Raise TypeError
  end.

(** ** Dictionaries with string keys, in insertion order *)

(** [d.get(key)], [None] when the key is absent. *)
Fixpoint dict_lookup {A : Type} (d : list (string * A)) (key : string) : option A :=
  match d with
  | [] => None
  | (k, v) :: d' => if String.eqb k key then Some v else dict_lookup d' key
  end.

(** [d[key] = v]: an existing key keeps its place, a new one goes last. *)
Fixpoint dict_set {A : Type} (d : list (string * A)) (key : string) (v : A)
  : list (string * A) :=
  match d with
  | [] => [(key, v)]
  | (k, w) :: d' =>
      if String.eqb k key then (k, v) :: d' else (k, w) :: dict_set d' key v
  end.

(** [v.get(key, default)]: only a [dict] has the method. *)
Definition py_get (v : pyval) (key : string) (dflt : pyval) : result pyval :=
  match v with
  | VDict d => Ok (default dflt (dict_lookup d key))
  | _ => Raise AttributeError
  end.

(** [len(v)]. *)
Definition py_len (v : pyval) : result Z :=
  match v with
  | VStr s => Ok (Z.of_nat (String.length s))
  | VList l => Ok (Z.of_nat (length l))
  | VDict d => Ok (Z.of_nat (length d))
  | VNone | VBool _ | VInt _ | VFloat _ => Raise TypeError
  end.

(** The items [for x in v] visits: the elements of a list, the characters
    of a string, the keys of a dict. *)
Definition py_iter (v : pyval) : result (list pyval) :=
  match v with
  | VList l => Ok l
  | VStr s => Ok ((λ c, VStr (String c "")) <$> list_ascii_of_string s)
  | VDict d => Ok ((λ kv, VStr (fst kv)) <$> d)
  | VNone | VBool _ | VInt _ | VFloat _ => Raise TypeError
  end.

(** [[f(x) for x in l]] where [f] may raise: stops at the first exception. *)
Fixpoint traverse {A B : Type} (f : A -> result B) (l : list A) : result (list B) :=
  match l with
  | [] => Ok []
  | x :: l' => y ← f x; ys ← traverse f l'; Ok (y :: ys)
  end.

(** ** The action record and the action catalog (lines 46-126) *)

Record ActionItem : Type := mkActionItem {
  action_type : pyval;
  params : pyval;
  delay_ms : Z;
}.

Definition to_dict (self : ActionItem) : pyval :=
  VDict [("action_type", action_type self);
         ("params", params self);
         ("delay_ms", VInt (delay_ms self))].

Definition from_dict (data : pyval) : result ActionItem :=
  action_type ← py_get data "action_type" (VStr "");
  got ← py_get data "params" (VDict []);
  let params := if truthy got then got else VDict [] in
  raw_delay ← py_get data "delay_ms" (VInt 0);
  delay_ms ← py_int raw_delay;
  Ok (mkActionItem action_type params delay_ms).

Record ActionDefinition : Type := mkActionDefinition {
  requires_position : bool;
  optional_position : bool;
  requires_text : bool;
  uses_delay_as_duration : bool;
  description : string;
}.

Definition ACTION_DEFINITIONS : list (string * ActionDefinition) :=
  [ ("Move to Match",
     mkActionDefinition false false false false
       "Move cursor to the matched image center.");
    ("Move to Position",
     mkActionDefinition true false false false
       "Move cursor to the specified X,Y coordinates.");
    ("Left Click",
     mkActionDefinition false true false false
       "Left click at match center or optional coordinates.");
    ("Right Click",
     mkActionDefinition false true false false
       "Right click at match center or optional coordinates.");
    ("Double Click",
     mkActionDefinition false true false false
       "Double-click at match center or optional coordinates.");
    ("Type Text",
     mkActionDefinition false false true false
       "Type the provided text at the current cursor position.");
    ("Press Key",
     mkActionDefinition false false true false
       "Press a key or key combination (e.g. ctrl+alt+t).");
    ("Wait",
     mkActionDefinition false false false true
       "Pause for the specified delay before continuing.") ].

(** [definition.get(flag)] on the result of [ACTION_DEFINITIONS.get(name, {})]:
    a missing flag reads as false. *)
Definition definition_flag (flag : ActionDefinition -> bool)
    (definition : option ActionDefinition) : bool :=
  match definition with
  | Some d => flag d
  | None => false
  end.

Definition DEFAULT_ACTION_DELAY_MS : Z := 1000.

(** [parse_int(value)] for a [str]; the [ValueError] of [int] becomes [None]. *)
Definition parse_int (value : string) : option Z := int_of_str value.

Definition parse_positive_int (value : string) : option Z :=
  match parse_int value with
  | None => None
  | Some number => if number <? 0 then None else Some number
  end.

(** [text.split("+")]. *)
Fixpoint split_plus (cur : list ascii) (l : list ascii) : list string :=
  match l with
  | [] => [string_of_list_ascii (rev cur)]
  | c :: l' =>
      if Ascii.eqb c "+"%char
      then string_of_list_ascii (rev cur) :: split_plus [] l'
      else split_plus (c :: cur) l'
  end.

Definition str_truthy (s : string) : bool := negb (String.eqb s "").

Definition parse_hotkey_sequence (text : string) : list string :=
  if negb (str_truthy text) then []
  else
    let parts := strip <$> split_plus [] (list_ascii_of_string text) in
    filter (λ part, str_truthy part = true) parts.

(** ** The application state (the fields of [App] the core reads and writes) *)

(** The widgets of the action form, by the value they hold. *)
Record ActionForm : Type := mkActionForm {
  action_dropdown : string;
  action_text_input : string;
  pos_x_input : string;
  pos_y_input : string;
  delay_input : string;
}.

(** The [disabled] flag of the three buttons [update_run_buttons] drives. *)
Record RunButtons : Type := mkRunButtons {
  start_button_disabled : bool;
  stop_button_disabled : bool;
  set_region_button_disabled : bool;
}.

(** [target_image_cv] is kept by its [shape[:2]], height first;
    [stop_event] is the flag of the [threading.Event];
    [automation_thread] and [global_hotkey_handles] hold identifiers of
    threads and of registrations; the sliders and dropdowns hold their
    value. *)
Record App : Type := mkApp {
  form : ActionForm;
  actions : list ActionItem;
  selected_action_index : option nat;
  status_message : message;
  search_region : option (Z * Z * Z * Z);
  region_message : message;
  similarity_slider : Z;
  similarity_threshold : spec_float;
  target_image_cv : option (Z * Z);
  hotkey_scope : string;
  focus_dropdown : string;
  toggle_hotkey : string;
  action_hotkey : string;
  awaiting_hotkey : option string;
  global_hotkey_handles : list nat;
  region_setting_in_progress : bool;
  automation_thread : option nat;
  stop_event : bool;
  automation_running : bool;
  buttons : RunButtons;
}.

(** Field assignments [self.f = v]. *)
Definition set_form (v : ActionForm) (self : App) : App :=
  mkApp v (actions self) (selected_action_index self) (status_message self)
    (search_region self) (region_message self) (similarity_slider self)
    (similarity_threshold self) (target_image_cv self) (hotkey_scope self)
    (focus_dropdown self) (toggle_hotkey self) (action_hotkey self)
    (awaiting_hotkey self) (global_hotkey_handles self)
    (region_setting_in_progress self) (automation_thread self) (stop_event
    self) (automation_running self) (buttons self).

Definition set_target_image_cv (v : option (Z * Z)) (self : App) : App :=
  mkApp (form self) (actions self) (selected_action_index self)
    (status_message self) (search_region self) (region_message self)
    (similarity_slider self) (similarity_threshold self) v (hotkey_scope self)
    (focus_dropdown self) (toggle_hotkey self) (action_hotkey self)
    (awaiting_hotkey self) (global_hotkey_handles self)
    (region_setting_in_progress self) (automation_thread self) (stop_event
    self) (automation_running self) (buttons self).

Definition set_similarity_threshold (v : spec_float) (self : App) : App :=
  mkApp (form self) (actions self) (selected_action_index self)
    (status_message self) (search_region self) (region_message self)
    (similarity_slider self) v (target_image_cv self) (hotkey_scope self)
    (focus_dropdown self) (toggle_hotkey self) (action_hotkey self)
    (awaiting_hotkey self) (global_hotkey_handles self)
    (region_setting_in_progress self) (automation_thread self) (stop_event
    self) (automation_running self) (buttons self).

Definition set_actions (v : list ActionItem) (self : App) : App :=
  mkApp (form self) v (selected_action_index self) (status_message self)
    (search_region self) (region_message self) (similarity_slider self)
    (similarity_threshold self) (target_image_cv self) (hotkey_scope self)
    (focus_dropdown self) (toggle_hotkey self) (action_hotkey self)
    (awaiting_hotkey self) (global_hotkey_handles self)
    (region_setting_in_progress self) (automation_thread self) (stop_event
    self) (automation_running self) (buttons self).

Definition set_selected_action_index (v : option nat) (self : App) : App :=
  mkApp (form self) (actions self) v (status_message self) (search_region
    self) (region_message self) (similarity_slider self) (similarity_threshold
    self) (target_image_cv self) (hotkey_scope self) (focus_dropdown self)
    (toggle_hotkey self) (action_hotkey self) (awaiting_hotkey self)
    (global_hotkey_handles self) (region_setting_in_progress self)
    (automation_thread self) (stop_event self) (automation_running self)
    (buttons self).

Definition set_status_message (v : message) (self : App) : App :=
  mkApp (form self) (actions self) (selected_action_index self) v
    (search_region self) (region_message self) (similarity_slider self)
    (similarity_threshold self) (target_image_cv self) (hotkey_scope self)
    (focus_dropdown self) (toggle_hotkey self) (action_hotkey self)
    (awaiting_hotkey self) (global_hotkey_handles self)
    (region_setting_in_progress self) (automation_thread self) (stop_event
    self) (automation_running self) (buttons self).

Definition set_search_region (v : option (Z * Z * Z * Z)) (self : App) : App :=
  mkApp (form self) (actions self) (selected_action_index self)
    (status_message self) v (region_message self) (similarity_slider self)
    (similarity_threshold self) (target_image_cv self) (hotkey_scope self)
    (focus_dropdown self) (toggle_hotkey self) (action_hotkey self)
    (awaiting_hotkey self) (global_hotkey_handles self)
    (region_setting_in_progress self) (automation_thread self) (stop_event
    self) (automation_running self) (buttons self).

Definition set_region_message (v : message) (self : App) : App :=
  mkApp (form self) (actions self) (selected_action_index self)
    (status_message self) (search_region self) v (similarity_slider self)
    (similarity_threshold self) (target_image_cv self) (hotkey_scope self)
    (focus_dropdown self) (toggle_hotkey self) (action_hotkey self)
    (awaiting_hotkey self) (global_hotkey_handles self)
    (region_setting_in_progress self) (automation_thread self) (stop_event
    self) (automation_running self) (buttons self).

Definition set_similarity_slider (v : Z) (self : App) : App :=
  mkApp (form self) (actions self) (selected_action_index self)
    (status_message self) (search_region self) (region_message self) v
    (similarity_threshold self) (target_image_cv self) (hotkey_scope self)
    (focus_dropdown self) (toggle_hotkey self) (action_hotkey self)
    (awaiting_hotkey self) (global_hotkey_handles self)
    (region_setting_in_progress self) (automation_thread self) (stop_event
    self) (automation_running self) (buttons self).

Definition set_hotkey_scope (v : string) (self : App) : App :=
  mkApp (form self) (actions self) (selected_action_index self)
    (status_message self) (search_region self) (region_message self)
    (similarity_slider self) (similarity_threshold self) (target_image_cv
    self) v (focus_dropdown self) (toggle_hotkey self) (action_hotkey self)
    (awaiting_hotkey self) (global_hotkey_handles self)
    (region_setting_in_progress self) (automation_thread self) (stop_event
    self) (automation_running self) (buttons self).

Definition set_focus_dropdown (v : string) (self : App) : App :=
  mkApp (form self) (actions self) (selected_action_index self)
    (status_message self) (search_region self) (region_message self)
    (similarity_slider self) (similarity_threshold self) (target_image_cv
    self) (hotkey_scope self) v (toggle_hotkey self) (action_hotkey self)
    (awaiting_hotkey self) (global_hotkey_handles self)
    (region_setting_in_progress self) (automation_thread self) (stop_event
    self) (automation_running self) (buttons self).

Definition set_toggle_hotkey (v : string) (self : App) : App :=
  mkApp (form self) (actions self) (selected_action_index self)
    (status_message self) (search_region self) (region_message self)
    (similarity_slider self) (similarity_threshold self) (target_image_cv
    self) (hotkey_scope self) (focus_dropdown self) v (action_hotkey self)
    (awaiting_hotkey self) (global_hotkey_handles self)
    (region_setting_in_progress self) (automation_thread self) (stop_event
    self) (automation_running self) (buttons self).

Definition set_action_hotkey (v : string) (self : App) : App :=
  mkApp (form self) (actions self) (selected_action_index self)
    (status_message self) (search_region self) (region_message self)
    (similarity_slider self) (similarity_threshold self) (target_image_cv
    self) (hotkey_scope self) (focus_dropdown self) (toggle_hotkey self) v
    (awaiting_hotkey self) (global_hotkey_handles self)
    (region_setting_in_progress self) (automation_thread self) (stop_event
    self) (automation_running self) (buttons self).

Definition set_awaiting_hotkey (v : option string) (self : App) : App :=
  mkApp (form self) (actions self) (selected_action_index self)
    (status_message self) (search_region self) (region_message self)
    (similarity_slider self) (similarity_threshold self) (target_image_cv
    self) (hotkey_scope self) (focus_dropdown self) (toggle_hotkey self)
    (action_hotkey self) v (global_hotkey_handles self)
    (region_setting_in_progress self) (automation_thread self) (stop_event
    self) (automation_running self) (buttons self).

Definition set_global_hotkey_handles (v : list nat) (self : App) : App :=
  mkApp (form self) (actions self) (selected_action_index self)
    (status_message self) (search_region self) (region_message self)
    (similarity_slider self) (similarity_threshold self) (target_image_cv
    self) (hotkey_scope self) (focus_dropdown self) (toggle_hotkey self)
    (action_hotkey self) (awaiting_hotkey self) v (region_setting_in_progress
    self) (automation_thread self) (stop_event self) (automation_running self)
    (buttons self).

Definition set_automation_thread (v : option nat) (self : App) : App :=
  mkApp (form self) (actions self) (selected_action_index self)
    (status_message self) (search_region self) (region_message self)
    (similarity_slider self) (similarity_threshold self) (target_image_cv
    self) (hotkey_scope self) (focus_dropdown self) (toggle_hotkey self)
    (action_hotkey self) (awaiting_hotkey self) (global_hotkey_handles self)
    (region_setting_in_progress self) v (stop_event self) (automation_running
    self) (buttons self).

Definition set_stop_event (v : bool) (self : App) : App :=
  mkApp (form self) (actions self) (selected_action_index self)
    (status_message self) (search_region self) (region_message self)
    (similarity_slider self) (similarity_threshold self) (target_image_cv
    self) (hotkey_scope self) (focus_dropdown self) (toggle_hotkey self)
    (action_hotkey self) (awaiting_hotkey self) (global_hotkey_handles self)
    (region_setting_in_progress self) (automation_thread self) v
    (automation_running self) (buttons self).

Definition set_automation_running (v : bool) (self : App) : App :=
  mkApp (form self) (actions self) (selected_action_index self)
    (status_message self) (search_region self) (region_message self)
    (similarity_slider self) (similarity_threshold self) (target_image_cv
    self) (hotkey_scope self) (focus_dropdown self) (toggle_hotkey self)
    (action_hotkey self) (awaiting_hotkey self) (global_hotkey_handles self)
    (region_setting_in_progress self) (automation_thread self) (stop_event
    self) v (buttons self).

Definition set_buttons (v : RunButtons) (self : App) : App :=
  mkApp (form self) (actions self) (selected_action_index self)
    (status_message self) (search_region self) (region_message self)
    (similarity_slider self) (similarity_threshold self) (target_image_cv
    self) (hotkey_scope self) (focus_dropdown self) (toggle_hotkey self)
    (action_hotkey self) (awaiting_hotkey self) (global_hotkey_handles self)
    (region_setting_in_progress self) (automation_thread self) (stop_event
    self) (automation_running self) v.

Definition set_status (msg : message) (self : App) : App :=
  set_status_message msg self.

Definition update_run_buttons (self : App) : App :=
  set_buttons
    (mkRunButtons (automation_running self)
                  (negb (automation_running self))
                  (region_setting_in_progress self))
    self.

(** ** Authoring: [App.add_action] (lines 987-1036) *)

(** The position part of [add_action] (lines 1001-1020): the [params]
    with the coordinates added, or the status of the validation that
    failed. *)
Definition add_action_position (definition : option ActionDefinition)
    (x_text y_text : string) (params : list (string * pyval))
  : message + list (string * pyval) :=
  if definition_flag requires_position definition then
    match parse_int x_text, parse_int y_text with
    | Some x_val, Some y_val =>
        inr (dict_set (dict_set params "x" (VInt x_val)) "y" (VInt y_val))
    | _, _ => inl [Lit "This action requires X and Y coordinates."]
    end
  else if definition_flag optional_position definition then
    if (str_truthy x_text && negb (str_truthy y_text))
       || (str_truthy y_text && negb (str_truthy x_text))
    then inl [Lit "Provide both X and Y or leave both empty."]
    else if str_truthy x_text && str_truthy y_text then
      match parse_int x_text, parse_int y_text with
      | Some x_val, Some y_val =>
          inr (dict_set (dict_set params "x" (VInt x_val)) "y" (VInt y_val))
      | _, _ => inl [Lit "Coordinates must be numbers."]
      end
    else inr params
  else inr params.

Definition add_action (self : App) : App :=
  let action_name := action_dropdown (form self) in
  let definition := dict_lookup ACTION_DEFINITIONS action_name in
  let delay_text := strip (delay_input (form self)) in
  let parsed_delay :=
    if str_truthy delay_text then parse_positive_int delay_text
    else Some DEFAULT_ACTION_DELAY_MS in
  match parsed_delay with
  | None => set_status [Lit "Delay must be a number in milliseconds."] self
  | Some delay_ms =>
      let x_text := strip (pos_x_input (form self)) in
      let y_text := strip (pos_y_input (form self)) in
      match add_action_position definition x_text y_text [] with
      | inl failure => set_status failure self
      | inr params =>
          let text_value := strip (action_text_input (form self)) in
          if definition_flag requires_text definition && negb (str_truthy text_value)
          then set_status [Lit "This action requires text or keys."] self
          else
            let params :=
              if definition_flag requires_text definition
              then dict_set params "text" (VStr text_value)
              else params in
            if String.eqb action_name "Wait" && (delay_ms <=? 0)
            then set_status [Lit "Set a delay (ms) for the Wait action."] self
            else
              let params :=
                if String.eqb action_name "Wait"
                then dict_set params "duration_ms" (VInt delay_ms)
                else params in
              let delay_ms := if String.eqb action_name "Wait" then 0 else delay_ms in
              let action := mkActionItem (VStr action_name) (VDict params) delay_ms in
              let self := set_actions (actions self ++ [action]) self in
              let self :=
                set_selected_action_index (Some (length (actions self) - 1)%nat) self in
              set_status [Lit "Added action '"; ShowStr action_name; Lit "'."] self
      end
  end.

(** ** Persistence: the loading half of [App.load_actions] (lines 1090-1136) *)

(** What the file dialog and the file hand to [load_actions]: [tkinter]
    cannot be imported; the dialog is dismissed ([file_path] is empty); a
    path ending in [.json], with the outcome of [open] and [json.load]; any
    other path, with the outcome of [open] and the rows [csv.DictReader]
    yields, each a dict from column name to the cell, or to [None] where
    the row is short. *)
Inductive load_source : Type :=
  | TkinterMissing
  | DialogCancelled
  | JsonFile (payload : result pyval)
  | CsvFile (rows : result (list (list (string * option string)))).

(** [Slider.set_value] of the similarity slider, built with bounds 50 and 100. *)
Definition slider_set_value (value : Z) : Z := Z.max 50 (Z.min 100 value).

Definition format_region_message (self : App) : message :=
  match search_region self with
  | None => [Lit "Use Full Screen"]
  | Some (x, y, w, h) =>
      [Lit "Region "; ShowInt x; Lit ", "; ShowInt y; Lit " (";
       ShowInt w; Lit "x"; ShowInt h; Lit ")"]
  end.

(** [for item in payload.get("actions", []): ... from_dict(item)]
    (lines 1112-1113). *)
Definition load_records (payload : pyval) : result (list ActionItem) :=
  items ← py_get payload "actions" (VList []);
  records ← py_iter items;
  traverse from_dict records.

(** The new region, if the payload has a usable one (lines 1114-1116). *)
Definition load_region (payload : pyval) : result (option (list Z)) :=
  region ← py_get payload "region" VNone;
  if truthy region then
    n ← py_len region;
    if n =? 4 then
      vs ← py_iter region; ints ← traverse py_int vs; Ok (Some ints)
    else Ok None
  else Ok None.

Definition apply_region (new_region : option (list Z)) (self : App) : App :=
  match new_region with
  | Some [a; b; c; d] =>
      let self := set_search_region (Some (a, b, c, d)) self in
      set_region_message (format_region_message self) self
  | _ => self
  end.

(** The new similarity, if the payload has one (lines 1118-1120). *)
Definition load_similarity (payload : pyval) : result (option Z) :=
  similarity ← py_get payload "similarity" VNone;
  match similarity with
  | VNone => Ok None
  | _ => v ← py_int similarity; Ok (Some v)
  end.

Definition apply_similarity (new_similarity : option Z) (self : App) : App :=
  match new_similarity with
  | Some v => set_similarity_slider (slider_set_value v) self
  | None => self
  end.

(** The [.json] branch (lines 1112-1120): the loaded actions and the state
    with region and similarity applied. The state comes back also when an
    exception is raised, because the assignments made before it stay. *)
Definition load_json (payload : pyval) (self : App) : result (list ActionItem) * App :=
  match load_records payload with
  | Raise exc => (Raise exc, self)
  | Ok loaded_actions =>
      match load_region payload with
      | Raise exc => (Raise exc, self)
      | Ok new_region =>
          let self := apply_region new_region self in
          match load_similarity payload with
          | Raise exc => (Raise exc, self)
          | Ok new_similarity => (Ok loaded_actions, apply_similarity new_similarity self)
          end
      end
  end.

Section Persistence.

(** [json.loads] on a string: the parsed value, or [JSONDecodeError]. *)
Variable json_loads : string -> result pyval.

(** One row of the [.csv] branch (lines 1125-1131). *)
Definition load_csv_row (row : list (string * option string)) : result ActionItem :=
  let params := default (Some "{}") (dict_lookup row "params") in
  params_dict ←
    match params with
    | Some text =>
        match json_loads text with
        | Raise JSONDecodeError => Ok (VDict [])
        | other => other
        end
    | None => Raise TypeError
    end;
  let delay_ms :=
    match default (Some "0") (dict_lookup row "delay_ms") with
    | Some text => default 0 (parse_positive_int text)
    | None => 0
    end in
  let action_type :=
    match default (Some "") (dict_lookup row "action_type") with
    | Some text => VStr text
    | None => VNone
    end in
  Ok (mkActionItem action_type params_dict delay_ms).

Definition load_actions (source : load_source) (self : App) : App :=
  match source with
  | TkinterMissing => set_status [Lit "tkinter is required to load files."] self
  | DialogCancelled => set_status [Lit "Load cancelled."] self
  | JsonFile (Raise exc) | CsvFile (Raise exc) =>
      set_status [Lit "Load failed: "; ShowExc exc] self
  | JsonFile (Ok payload) =>
      match load_json payload self with
      | (Raise exc, self) => set_status [Lit "Load failed: "; ShowExc exc] self
      | (Ok loaded_actions, self) =>
          let self := set_actions loaded_actions self in
          let self := set_selected_action_index None self in
          set_status [Lit "Loaded "; ShowInt (Z.of_nat (length (actions self)));
                      Lit " actions from file."] self
      end
  | CsvFile (Ok rows) =>
      match traverse load_csv_row rows with
      | Raise exc => set_status [Lit "Load failed: "; ShowExc exc] self
      | Ok loaded_actions =>
          let self := set_actions loaded_actions self in
          let self := set_selected_action_index None self in
          set_status [Lit "Loaded "; ShowInt (Z.of_nat (length (actions self)));
                      Lit " actions from file."] self
      end
  end.

End Persistence.

(** ** The optional imports (lines 14-43) *)

(** For each optional module, whether its import succeeded (the module
    variable is not [None]). *)
Record Imports : Type := mkImports {
  pyautogui : bool;
  cv2 : bool;
  np : bool;
  keyboard_module : bool;
}.

(** ** Detection: [capture_screen] and [perform_detection_cycle]
       (lines 1282-1318) *)

(** [a >= b] on floats: false as soon as one side is not a number. *)
Definition float_ge (a b : spec_float) : bool :=
  match SFcompare a b with
  | Some Gt | Some Eq => true
  | _ => false
  end.

(** The two outcomes [perform_detection_cycle] returns as a tuple:
    [(True, ((center_x, center_y), max_val))] and [(False, max_val)]. *)
Inductive detection : Type :=
  | Matched (center : Z * Z) (score : spec_float)
  | NotMatched (score : spec_float).


(** [screenshot] is the outcome of [pyautogui.screenshot]; the first
    component of the result tells whether a frame came back. *)
Definition capture_screen (env : Imports) (screenshot : result unit) (self : App)
  : (bool * (Z * Z)) * App :=
  if negb (pyautogui env) then ((false, (0, 0)), self)
  else
    match screenshot with
    | Raise exc =>
        ((false, (0, 0)), set_status [Lit "Screenshot error: "; ShowExc exc] self)
    | Ok _ =>
        let offset :=
          match search_region self with
          | Some (x, y, w, h) => (x, y)
          | None => (0, 0)
          end in
        if negb (np env) || negb (cv2 env) then ((false, offset), self)
        else ((true, offset), self)
    end.

(** [template] is the outcome of [cv2.matchTemplate] followed by
    [cv2.minMaxLoc]: the best score [max_val] and its location [max_loc]. *)
Definition perform_detection_cycle (env : Imports) (screenshot : result unit)
    (template : result (spec_float * (Z * Z))) (self : App)
  : option detection * App :=
  match target_image_cv self with
  | None => (None, self)
  | Some (h, w) =>
      if negb (pyautogui env) || negb (cv2 env) || negb (np env) then (None, self)
      else
        let '((got_frame, offset), self) := capture_screen env screenshot self in
        if negb got_frame then (None, self)
        else
          match template with
          | Raise exc =>
              (None, set_status [Lit "Template match failed: "; ShowExc exc] self)
          | Ok (max_val, max_loc) =>
              if float_ge max_val (similarity_threshold self) then
                let center_x := fst offset + fst max_loc + w / 2 in
                let center_y := snd offset + snd max_loc + h / 2 in
                (Some (Matched (center_x, center_y) max_val), self)
              else (Some (NotMatched max_val), self)
          end
  end.

(** ** Hotkey scope (lines 539-557 and 933-976) *)

(** What a global hotkey puts on [hotkey_queue] when it fires. *)
Inductive trigger : Type := TriggerToggle | TriggerAction.

(** The global key observation collaborator (the [keyboard] package behind
    [keyboard_module]), by its interface: [add_hotkey(key, callback)]
    returns a handle, [remove_hotkey(handle)] drops the registration. The
    provider keeps the live registrations and a log of the calls made to
    it, hands out a fresh handle for each registration, refuses a key name
    it cannot map and refuses to remove a handle it does not hold. *)
Inductive provider_call : Type :=
  | CallAdd (key : string) (outcome : option nat)
  | CallRemove (handle : nat) (removed : bool).

Record Provider : Type := mkProvider {
  registrations : list (nat * (string * trigger));
  next_handle : nat;
  calls : list provider_call;
}.

Definition holds (kb : Provider) (handle : nat) : bool :=
  existsb (λ r, Nat.eqb (fst r) handle) (registrations kb).

Section Hotkeys.

(** The key names the provider can map. *)
Variable known_key : string -> bool.

Definition add_hotkey (key : string) (t : trigger) (kb : Provider)
  : result nat * Provider :=
  if known_key key then
    let handle := next_handle kb in
    (Ok handle,
     mkProvider (registrations kb ++ [(handle, (key, t))]) (S handle)
                (calls kb ++ [CallAdd key (Some handle)]))
  else
    (Raise ValueError,
     mkProvider (registrations kb) (next_handle kb) (calls kb ++ [CallAdd key None])).

Definition remove_hotkey (handle : nat) (kb : Provider) : result unit * Provider :=
  if holds kb handle then
    (Ok tt,
     mkProvider (filter (λ r, fst r ≠ handle) (registrations kb)) (next_handle kb)
                (calls kb ++ [CallRemove handle true]))
  else
    (Raise (CollaboratorError "KeyError"),
     mkProvider (registrations kb) (next_handle kb)
                (calls kb ++ [CallRemove handle false])).

Variable env : Imports.

(** The loop of [unregister_global_hotkeys]: an exception of the provider
    is swallowed and the loop goes on. *)
Fixpoint remove_each (handles : list nat) (kb : Provider) : Provider :=
  match handles with
  | [] => kb
  | handle :: rest => remove_each rest (snd (remove_hotkey handle kb))
  end.

Definition unregister_global_hotkeys (st : App * Provider) : App * Provider :=
  let '(self, kb) := st in
  if negb (keyboard_module env) then (self, kb)
  else
    let kb := remove_each (global_hotkey_handles self) kb in
    (set_global_hotkey_handles [] self, kb).

(** The [except] branch and the branch for a missing provider share the
    fall back to the focused scope. *)
Definition revert_to_focused (self : App) : App :=
  set_hotkey_scope "Focused (in app)"
    (set_focus_dropdown "Focused (in app)" self).

Definition register_global_hotkeys (st : App * Provider) : App * Provider :=
  let '(self, kb) := st in
  if negb (keyboard_module env) then
    (revert_to_focused
       (set_status [Lit "Install 'keyboard' package to enable global hotkeys."] self),
     kb)
  else
    let '(self, kb) := unregister_global_hotkeys (self, kb) in
    match add_hotkey (toggle_hotkey self) TriggerToggle kb with
    | (Raise exc, kb) =>
        (revert_to_focused
           (set_status [Lit "Global hotkey error: "; ShowExc exc]
              (set_global_hotkey_handles [] self)), kb)
    | (Ok handle_toggle, kb) =>
        match add_hotkey (action_hotkey self) TriggerAction kb with
        | (Raise exc, kb) =>
            (revert_to_focused
               (set_status [Lit "Global hotkey error: "; ShowExc exc]
                  (set_global_hotkey_handles [] self)), kb)
        | (Ok handle_action, kb) =>
            (set_status [Lit "Global hotkeys enabled."]
               (set_global_hotkey_handles [handle_toggle; handle_action] self), kb)
        end
    end.

(** [scope.startswith("Global")]. *)
Definition is_global (scope : string) : bool := String.prefix "Global" scope.

Definition on_hotkey_scope_change (scope : string) (st : App * Provider)
  : App * Provider :=
  let '(self, kb) := st in
  let self := set_hotkey_scope scope self in
  if is_global scope then register_global_hotkeys (self, kb)
  else
    let '(self, kb) := unregister_global_hotkeys (self, kb) in
    (set_status [Lit "Hotkeys limited to app window."] self, kb).

Definition begin_hotkey_capture (kind : string) (self : App) : App :=
  match awaiting_hotkey self with
  | Some _ => self
  | None =>
      let self := set_awaiting_hotkey (Some kind) self in
      if String.eqb kind "toggle"
      then set_status [Lit "Press a key for the Toggle hotkey (Esc to cancel)."] self
      else set_status [Lit "Press a key for the Action hotkey (Esc to cancel)."] self
  end.

(** [str.lower] and [str.upper] on ASCII letters. *)
Definition lower_char (c : ascii) : ascii :=
  let n := nat_of_ascii c in
  if ((65 <=? n) && (n <=? 90))%nat then ascii_of_nat (n + 32) else c.

Definition upper_char (c : ascii) : ascii :=
  let n := nat_of_ascii c in
  if ((97 <=? n) && (n <=? 122))%nat then ascii_of_nat (n - 32) else c.

Definition lower (s : string) : string :=
  string_of_list_ascii (lower_char <$> list_ascii_of_string s).

Definition upper (s : string) : string :=
  string_of_list_ascii (upper_char <$> list_ascii_of_string s).

(** The branch of [handle_keydown] taken while a binding is being captured
    (lines 542-557); [key_name] is [pygame.key.name(event.key)]. With no
    capture in progress the key goes to the other branches, which are not
    part of this development, and the state is returned as it is. *)
Definition handle_keydown_capture (key_name : string) (is_escape : bool)
    (st : App * Provider) : App * Provider :=
  let '(self, kb) := st in
  match awaiting_hotkey self with
  | None => (self, kb)
  | Some kind =>
      if str_truthy kind then
        if is_escape then
          (set_status [Lit "Hotkey assignment cancelled."]
             (set_awaiting_hotkey None self), kb)
        else
          let assigned_key := lower key_name in
          let self :=
            if String.eqb kind "toggle" then
              set_status [Lit "Toggle hotkey set to "; ShowStr (upper assigned_key); Lit "."]
                (set_toggle_hotkey assigned_key self)
            else
              set_status [Lit "Action hotkey set to "; ShowStr (upper assigned_key); Lit "."]
                (set_action_hotkey assigned_key self) in
          let self := set_awaiting_hotkey None self in
          if is_global (hotkey_scope self) then register_global_hotkeys (self, kb)
          else (self, kb)
      else (self, kb)
  end.

End Hotkeys.

(** ** The action executor: [execute_actions] and [perform_action]
       (lines 1320-1389) *)

(** The calls made to the injection collaborator [pyautogui]. *)
Inductive injection : Type :=
  | MoveTo (x y : pyval)
  | Click (x y : pyval) (button : string)
  | DoubleClick (x y : pyval)
  | WriteText (text : pyval)
  | Press (key : string)
  | Hotkey (keys : list string).

(** What the executor does that another thread or the user can observe, in
    order: a call to [stop_flag.is_set()] at a given clock time with its
    answer, a [time.sleep] of so many milliseconds, an injection. *)
Inductive exec_event : Type :=
  | Polled (at_ms : Z) (answer : bool)
  | Slept (ms : Z)
  | Injected (call : injection).

(** [end_time]: a clock time, or never when the duration is infinite. *)
Inductive deadline : Type :=
  | Until (t : Z)
  | Never.

Definition before (now : Z) (d : deadline) : bool :=
  match d with
  | Until t => now <? t
  | Never => true
  end.

(** The argument of [time.sleep(0.01)], in milliseconds. *)
Definition POLL_MS : Z := 10.

(** The executor's view of the machine: the clock in milliseconds and the
    events so far. Time is exact: [time.time()] reads the clock,
    [time.sleep(0.01)] advances it by [POLL_MS], tests take no time. *)
Record Exec : Type := mkExec {
  clock : Z;
  events : list exec_event;
}.

(** [float(z)] overflows from this integer on. *)
Definition FLOAT_OVERFLOW : Z := 2 ^ 1024 - 2 ^ 970.

(** [v > 0]. *)
Definition py_positive (v : pyval) : result bool :=
  match v with
  | VInt z => Ok (0 <? z)
  | VBool b => Ok b
  | VFloat f => Ok (SFltb (S754_zero false) f)
  | VNone | VStr _ | VList _ | VDict _ => Raise TypeError
  end.

(** [time.time() + v / 1000.0] for a positive number [v] of milliseconds,
    as the first clock tick at which [time.time() < end_time] fails. *)
Definition deadline_after (now : Z) (v : pyval) : result deadline :=
  match v with
  | VInt z => if FLOAT_OVERFLOW <=? z then Raise OverflowError else Ok (Until (now + z))
  | VBool b => Ok (Until (now + Z.b2z b))
  | VFloat (S754_finite false m e) => Ok (Until (now - Z.shiftl (Zneg m) e))
  | VFloat (S754_infinity false) => Ok Never
  | VFloat _ => Ok (Until now)
  | VNone | VStr _ | VList _ | VDict _ => Raise TypeError
  end.

Section Executor.

(** [stop_flag.is_set()] as a function of the clock: the flag belongs to
    other threads. *)
Variable stop_flag : Z -> bool.

(** The injection collaborator: the milliseconds the call takes, or the
    exception it raises. *)
Variable inject : injection -> result Z.

(** The loop [while time.time() < end_time: if stop_flag.is_set(): break;
    time.sleep(0.01)] (lines 1333-1336 and 1341-1344). [fuel] bounds the
    number of iterations; [None] when it runs out. *)
Fixpoint sleep_loop (fuel : nat) (end_time : deadline) (ex : Exec) : option Exec :=
  match fuel with
  | O => None
  | S fuel' =>
      if before (clock ex) end_time then
        if stop_flag (clock ex)
        then Some (mkExec (clock ex) (events ex ++ [Polled (clock ex) true]))
        else sleep_loop fuel' end_time
               (mkExec (clock ex + POLL_MS)
                       (events ex ++ [Polled (clock ex) false; Slept POLL_MS]))
      else Some ex
  end.

Definition call (c : injection) (ex : Exec) : result Exec :=
  cost ← inject c;
  Ok (mkExec (clock ex + cost) (events ex ++ [Injected c])).

(** [x is not None]. *)
Definition is_not_none (v : pyval) : bool :=
  match v with
  | VNone => false
  | _ => true
  end.

(** [action.action_type == name]. *)
Definition type_is (action : ActionItem) (name : string) : bool :=
  match action_type action with
  | VStr s => String.eqb s name
  | _ => false
  end.

(** [if isinstance(v, str): v = parse_int(v)]. *)
Definition int_if_str (v : pyval) : pyval :=
  match v with
  | VStr s =>
      match parse_int s with
      | Some z => VInt z
      | None => VNone
      end
  | _ => v
  end.

Definition perform_action (action : ActionItem) (match_center : Z * Z) (ex : Exec)
  : result Exec :=
  let params := if truthy (params action) then params action else VDict [] in
  x ← py_get params "x" VNone;
  y ← py_get params "y" VNone;
  let x := int_if_str x in
  let y := int_if_str y in
  let cx := VInt (fst match_center) in
  let cy := VInt (snd match_center) in
  if type_is action "Move to Match" then call (MoveTo cx cy) ex
  else if type_is action "Move to Position" then
    if negb (is_not_none x) || negb (is_not_none y) then Raise ValueError
    else call (MoveTo x y) ex
  else if type_is action "Left Click" then
    if is_not_none x && is_not_none y then call (Click x y "left") ex
    else call (Click cx cy "left") ex
  else if type_is action "Right Click" then
    if is_not_none x && is_not_none y then call (Click x y "right") ex
    else call (Click cx cy "right") ex
  else if type_is action "Double Click" then
    if is_not_none x && is_not_none y then call (DoubleClick x y) ex
    else call (DoubleClick cx cy) ex
  else if type_is action "Type Text" then
    text ← py_get params "text" (VStr "");
    if truthy text then call (WriteText text) ex else Ok ex
  else if type_is action "Press Key" then
    text ← py_get params "text" (VStr "");
    sequence ←
      (if negb (truthy text) then Ok []
       else match text with
            | VStr s => Ok (parse_hotkey_sequence s)
            | _ => Raise AttributeError
            end);
    match sequence with
    | [] => Ok ex
    | [key] => call (Press key) ex
    | keys => call (Hotkey keys) ex
    end
  else Ok ex.

(** How one turn of the [for] loop of [execute_actions] ends. *)
Inductive turn : Type :=
  | Next (ex : Exec)
  | Broke (ex : Exec) (failure : option (pyval * pyexc))
  | OutOfFuel.

(** The body of the loop for one action (lines 1326-1347). *)
Definition execute_one (fuel : nat) (match_center : Z * Z) (action : ActionItem)
    (ex : Exec) : turn :=
  let ex := mkExec (clock ex) (events ex ++ [Polled (clock ex) (stop_flag (clock ex))]) in
  if stop_flag (clock ex) then Broke ex None
  else if type_is action "Wait" then
    match (duration ← py_get (params action) "duration_ms" (VInt (delay_ms action));
           is_positive ← py_positive duration;
           Ok (duration, is_positive)) with
    | Raise exc => Broke ex (Some (action_type action, exc))
    | Ok (duration, false) => Next ex
    | Ok (duration, true) =>
        match deadline_after (clock ex) duration with
        | Raise exc => Broke ex (Some (action_type action, exc))
        | Ok end_time =>
            match sleep_loop fuel end_time ex with
            | Some ex => Next ex
            | None => OutOfFuel
            end
        end
    end
  else
    match perform_action action match_center ex with
    | Raise exc => Broke ex (Some (action_type action, exc))
    | Ok ex =>
        if 0 <? delay_ms action then
          if FLOAT_OVERFLOW <=? delay_ms action
          then Broke ex (Some (action_type action, OverflowError))
          else
            match sleep_loop fuel (Until (clock ex + delay_ms action)) ex with
            | Some ex => Next ex
            | None => OutOfFuel
            end
        else Next ex
    end.

Fixpoint execute_loop (fuel : nat) (match_center : Z * Z) (todo : list ActionItem)
    (ex : Exec) : turn :=
  match todo with
  | [] => Next ex
  | action :: rest =>
      match execute_one fuel match_center action ex with
      | Next ex => execute_loop fuel match_center rest ex
      | stopped => stopped
      end
  end.

End Executor.


(** ** The automation scheduler: [start_automation], [stop_automation],
       [automation_loop], [toggle_run_from_hotkey] (lines 1225-1280 and
       1391-1395) *)

(** Where a thread running [automation_loop] stands: about to test
    [while not self.stop_event.is_set()] (line 1260); inside
    [perform_detection_cycle] (line 1261); inside [execute_actions] on a
    match (line 1269); about to test [if self.stop_event.is_set(): break]
    (line 1273); inside [time.sleep] (lines 1263 and 1275); returned, the
    [finally] block done. *)
Inductive worker_pc : Type :=
  | AtLoopTest
  | InDetection
  | InExecution (center : Z * Z)
  | AtBreakTest
  | InSleep
  | Exited.

Definition is_alive (pc : worker_pc) : bool :=
  match pc with
  | Exited => false
  | _ => true
  end.

(** The shared state and the threads started on [automation_loop], the
    thread identifier being the position in the list. *)
Record World : Type := mkWorld {
  app : App;
  workers : list worker_pc;
}.

(** What the environment contributes to one step of a worker: nothing;
    the answers of the capture and matching collaborators to a detection
    cycle; an exception escaping the cycle or the executor; the status
    [execute_actions] leaves when an action failed. A step that has no use
    for its input leaves the thread where it is. *)
Inductive worker_input : Type :=
  | NoInput
  | Answers (screenshot : result unit) (template : result (spec_float * (Z * Z)))
  | Crash (exc : pyexc)
  | Executed (failure : option message).

Section Scheduler.

Variable env : Imports.

(** [", ".join(missing)] for the packages that failed to import. *)
Definition missing_packages : list string :=
  (if pyautogui env then [] else ["pyautogui"])
  ++ (if cv2 env then [] else ["opencv-python"])
  ++ (if np env then [] else ["numpy"]).

Definition thread_alive (w : World) : bool :=
  match automation_thread (app w) with
  | None => false
  | Some tid => default false (is_alive <$> workers w !! tid)
  end.

Definition start_automation (w : World) : World :=
  let self := app w in
  if automation_running self then w
  else
    match missing_packages with
    | _ :: _ =>
        mkWorld (set_status [Lit "Install required packages: ";
                             ShowStr (String.concat ", " missing_packages)] self)
                (workers w)
    | [] =>
        match target_image_cv self with
        | None => mkWorld (set_status [Lit "Paste a target image first."] self) (workers w)
        | Some _ =>
            let self := set_stop_event false self in
            let self := set_automation_running true self in
            let self := update_run_buttons self in
            let self := set_status [Lit "Automation running..."] self in
            let self := set_automation_thread (Some (length (workers w))) self in
            mkWorld self (workers w ++ [AtLoopTest])
        end
    end.

(** The [finally] block of [automation_loop] (lines 1278-1280). *)
Definition loop_finally (self : App) : App :=
  update_run_buttons (set_automation_running false self).

(** One step of the thread at [pc] running [automation_loop]. *)
Definition automation_loop_step (input : worker_input) (pc : worker_pc) (self : App)
  : worker_pc * App :=
  match pc with
  | AtLoopTest =>
      if stop_event self then (Exited, loop_finally self) else (InDetection, self)
  | InDetection =>
      match input with
      | Answers screenshot template =>
          match perform_detection_cycle env screenshot template self with
          | (None, self) => (InSleep, self)
          | (Some (Matched center score), self) =>
              (InExecution center,
               set_status [Lit "Match "; ShowPercent score; Lit "% at ";
                           ShowInt (fst center); Lit ", "; ShowInt (snd center)] self)
          | (Some (NotMatched score), self) =>
              (AtBreakTest,
               set_status [Lit "No match ("; ShowPercent score; Lit "%)."] self)
          end
      | Crash exc =>
          (Exited, loop_finally (set_status [Lit "Automation error: "; ShowExc exc] self))
      | _ => (InDetection, self)
      end
  | InExecution center =>
      match input with
      | Executed (Some failure) => (AtBreakTest, set_status failure self)
      | Executed None => (AtBreakTest, self)
      | Crash exc =>
          (Exited, loop_finally (set_status [Lit "Automation error: "; ShowExc exc] self))
      | _ => (InExecution center, self)
      end
  | AtBreakTest =>
      if stop_event self then (Exited, loop_finally self) else (InSleep, self)
  | InSleep => (AtLoopTest, self)
  | Exited => (Exited, self)
  end.

(** The thread [tid] takes one step. *)
Definition worker_step (tid : nat) (input : worker_input) (w : World) : World :=
  match workers w !! tid with
  | None => w
  | Some pc =>
      let '(pc, self) := automation_loop_step input pc (app w) in
      mkWorld self (<[tid := pc]> (workers w))
  end.

(** [self.automation_thread.join(timeout=2.0)]: the caller is blocked while
    the workers take the steps of [schedule], until the joined thread has
    exited or the schedule, that is the timeout, is used up. *)
Fixpoint join (tid : nat) (schedule : list (nat * worker_input)) (w : World) : World :=
  match schedule with
  | [] => w
  | (t, input) :: rest =>
      if default false (is_alive <$> workers w !! tid)
      then join tid rest (worker_step t input w)
      else w
  end.

Definition stop_automation (wait : bool) (schedule : list (nat * worker_input))
    (w : World) : World :=
  let w :=
    if thread_alive w then
      let w := mkWorld (set_stop_event true (app w)) (workers w) in
      if wait then
        match automation_thread (app w) with
        | Some tid => join tid schedule w
        | None => w
        end
      else w
    else w in
  let self := set_automation_running false (app w) in
  let self := update_run_buttons self in
  let self := if wait then set_status [Lit "Automation stopped."] self else self in
  mkWorld self (workers w).

Definition toggle_run_from_hotkey (w : World) : World :=
  if automation_running (app w)
  then mkWorld (set_stop_event true (app w)) (workers w)
  else start_automation w.

(** What happens to the world: the interactive thread calls one of the
    three operations, or a worker takes a step. *)
Inductive event : Type :=
  | CallStart
  | CallStop (wait : bool) (schedule : list (nat * worker_input))
  | CallToggle
  | Step (tid : nat) (input : worker_input).

Definition apply_event (e : event) (w : World) : World :=
  match e with
  | CallStart => start_automation w
  | CallStop wait schedule => stop_automation wait schedule w
  | CallToggle => toggle_run_from_hotkey w
  | Step tid input => worker_step tid input w
  end.

Definition run (trace : list event) (w : World) : World :=
  foldl (λ w e, apply_event e w) w trace.

(** The threads still inside [automation_loop]. *)
Definition active_workers (w : World) : nat :=
  length (filter (λ pc, is_alive pc = true) (workers w)).

End Scheduler.

(** The state [App.__init__] builds (lines 278-306), the form empty and the
    first action selected in the dropdown. *)
Definition initial_app : App :=
  {| form := mkActionForm "Move to Match" "" "" "" "";
     actions := [];
     selected_action_index := None;
     status_message := [Lit "Idle"];
     search_region := None;
     region_message := [Lit "Use Full Screen"];
     similarity_slider := 80;
     similarity_threshold := S754_finite false 7205759403792794 (-53) (* 0.8 *);
     target_image_cv := None;
     hotkey_scope := "Focused (in app)";
     focus_dropdown := "Focused (in app)";
     toggle_hotkey := "f9";
     action_hotkey := "f10";
     awaiting_hotkey := None;
     global_hotkey_handles := [];
     region_setting_in_progress := false;
     automation_thread := None;
     stop_event := false;
     automation_running := false;
     buttons := mkRunButtons false true false |}.

(** ** The vocabulary of the specification *)


(** The payload [save_actions] writes for a [.json] path (lines 1073-1077),
    as [json.load] reads it back: the region tuple comes back as a list. *)
Definition save_payload (self : App) : pyval :=
  VDict [("actions", VList (to_dict <$> actions self));
         ("region",
          match search_region self with
          | None => VNone
          | Some (x, y, w, h) => VList [VInt x; VInt y; VInt w; VInt h]
          end);
         ("similarity", VInt (similarity_slider self))].

(** [d] is a dict that holds an integer under [key]. *)
Definition holds_int (v : pyval) (key : string) : Prop :=
  ∃ d z, v = VDict d ∧ dict_lookup d key = Some (VInt z).

(** The invariants of an authored step (section 3 of the specification):
    the parameters are a mapping and the delay is not negative; a
    [Move to Position] step carries both coordinates; a [Type Text] or
    [Press Key] step carries a text that is not empty; a [Wait] step
    carries a duration that is not negative, and no delay. *)
Definition item_invariant (a : ActionItem) : Prop :=
  (∃ d, params a = VDict d)
  ∧ 0 ≤ delay_ms a
  ∧ (action_type a = VStr "Move to Position" →
     holds_int (params a) "x" ∧ holds_int (params a) "y")
  ∧ (action_type a = VStr "Type Text" ∨ action_type a = VStr "Press Key" →
     ∃ d text, params a = VDict d ∧ dict_lookup d "text" = Some (VStr text) ∧ text ≠ "")
  ∧ (action_type a = VStr "Wait" →
     (∃ d z, params a = VDict d ∧ dict_lookup d "duration_ms" = Some (VInt z) ∧ 0 ≤ z)
     ∧ delay_ms a = 0).

(** The statuses with which [add_action] rejects a request. *)
Definition validation_failures : list message :=
  [ [Lit "Delay must be a number in milliseconds."];
    [Lit "This action requires X and Y coordinates."];
    [Lit "Provide both X and Y or leave both empty."];
    [Lit "Coordinates must be numbers."];
    [Lit "This action requires text or keys."];
    [Lit "Set a delay (ms) for the Wait action."] ].

(** [isinstance(v, dict)]. *)
Definition is_dict (v : pyval) : bool :=
  match v with
  | VDict _ => true
  | _ => false
  end.

(** The top-left corner of the captured area: the corner of the search
    region, or of the screen. *)
Definition capture_offset (self : App) : Z * Z :=
  match search_region self with
  | Some (x, y, _, _) => (x, y)
  | None => (0, 0)
  end.

(** Every sleep of the list lasts at most 20 ms and comes right after a
    call to [is_set] that found the flag clear; [after_poll] tells whether
    the list starts right after such a call. *)
Fixpoint sleeps_polled (after_poll : bool) (evs : list exec_event) : bool :=
  match evs with
  | [] => true
  | Polled _ answer :: evs' => sleeps_polled (negb answer) evs'
  | Slept ms :: evs' => after_poll && (ms <=? 20) && sleeps_polled false evs'
  | Injected _ :: evs' => sleeps_polled false evs'
  end.

(** No injection among the events. *)
Definition nothing_injected (evs : list exec_event) : bool :=
  forallb (λ e, match e with Injected _ => false | _ => true end) evs.



(** At most one worker is inside [automation_loop], and the running flag
    is set while one is. *)
Definition single_flight (w : World) : Prop :=
  active_workers w = 0%nat
  ∨ (active_workers w = 1%nat ∧ automation_running (app w) = true).

Definition is_stop (e : event) : bool :=
  match e with
  | CallStop _ _ => true
  | _ => false
  end.

(** ** Sample inputs *)




(** A [json.loads] that accepts the empty object only. *)
Definition sample_json_loads (text : string) : result pyval :=
  if String.eqb text "{}" then Ok (VDict []) else Raise JSONDecodeError.

(** The starting state with the action form filled in. *)
Definition with_form (kind text x y delay : string) : App :=
  set_form (mkActionForm kind text x y delay) initial_app.

(** Every optional package imported. *)
Definition full_imports : Imports := mkImports true true true true.

(** The floats 1.0 and 0.8. *)
Definition float_one : spec_float := S754_finite false 4503599627370496 (-52).

(** The starting state with a reference image 40 wide and 30 high. *)
Definition sample_detect_app : App := set_target_image_cv (Some (30, 40)) initial_app.

(** A provider with nothing registered, one that maps the two default
    keys only, and a session: the action hotkey is rebound to a key the
    provider cannot map; the scope is switched to global, which fails and
    falls back; the action hotkey is bound to F10 again; the scope is
    switched to global, then back to the application window. *)
Definition no_registrations : Provider := mkProvider [] 0 [].

Definition sample_known_key (key : string) : bool :=
  String.eqb key "f9" || String.eqb key "f10".

Definition rebind_action (key_name : string) (st : App * Provider) : App * Provider :=
  handle_keydown_capture sample_known_key full_imports key_name false
    (begin_hotkey_capture "action" (fst st), snd st).

Definition scope_session : App * Provider :=
  let st := (initial_app, no_registrations) in
  let st := rebind_action "numlock" st in
  let st := on_hotkey_scope_change sample_known_key full_imports "Global" st in
  let st := rebind_action "f10" st in
  let st := on_hotkey_scope_change sample_known_key full_imports "Global" st in
  on_hotkey_scope_change sample_known_key full_imports "Focused (in app)" st.



Definition instant_inject (c : injection) : result Z := Ok 0.

Definition fresh_exec : Exec := mkExec 0 [].

(** The float 0.5, a world with the reference image loaded and no thread,
    and a session: Start is clicked; the worker runs one cycle without a
    match and goes to sleep for [loop_delay]; Stop is clicked, then Start
    again; the first worker wakes up and both workers enter a detection
    cycle. *)
Definition float_0_5 : spec_float := S754_finite false 4503599627370496 (-53).

Definition sample_ready_world : World := mkWorld sample_detect_app [].

Definition restart_session : list event :=
  [ CallStart;
    Step 0 NoInput;
    Step 0 (Answers (Ok tt) (Ok (float_0_5, (0, 0))));
    Step 0 NoInput;
    CallStop false [];
    CallStart;
    Step 0 NoInput;
    Step 0 NoInput;
    Step 1 NoInput ].

(** The world right after Start is clicked. *)
Definition sample_running_world : World :=
  start_automation full_imports sample_ready_world.

(** ** Further operations of [App]: editing the list, the table, the region
       (lines 806-864, 1038-1051 and 1165-1223) *)

Definition set_region_setting_in_progress (v : bool) (self : App) : App :=
  mkApp (form self) (actions self) (selected_action_index self)
    (status_message self) (search_region self) (region_message self)
    (similarity_slider self) (similarity_threshold self) (target_image_cv
    self) (hotkey_scope self) (focus_dropdown self) (toggle_hotkey self)
    (action_hotkey self) (awaiting_hotkey self) (global_hotkey_handles self)
    v (automation_thread self) (stop_event self) (automation_running self)
    (buttons self).

(** [App.delete_action] (lines 1038-1051); [self.actions.pop(i)] is the
    list without its element [i]. *)
Definition delete_action (self : App) : App :=
  match actions self with
  | [] =>
      set_selected_action_index None (set_status [Lit "No actions to delete."] self)
  | _ :: _ =>
      match selected_action_index self with
      | None => set_status [Lit "Select an action to delete."] self
      | Some i =>
          match actions self !! i with
          | None => set_status [Lit "Select an action to delete."] self
          | Some removed =>
              let self := set_actions (delete i (actions self)) self in
              let self :=
                set_status [Lit "Removed action '"; ShowVal (action_type removed);
                            Lit "'."] self in
              match actions self with
              | [] => set_selected_action_index None self
              | _ :: _ =>
                  set_selected_action_index
                    (Some (Nat.min i (length (actions self) - 1))) self
              end
          end
      end
  end.

(** A [pygame.Rect] and its [collidepoint]: the right and bottom edges are
    outside. *)
Record Rect : Type := mkRect {
  rect_x : Z;
  rect_y : Z;
  rect_width : Z;
  rect_height : Z;
}.

Definition collidepoint (r : Rect) (pos : Z * Z) : bool :=
  (rect_x r <=? fst pos) && (fst pos <? rect_x r + rect_width r)
  && (rect_y r <=? snd pos) && (snd pos <? rect_y r + rect_height r).

(** [self.action_table_rect] for the screen width of 1200 (line 275) and
    [self.action_table_max_visible] (line 284). *)
Definition ACTION_TABLE_RECT : Rect := mkRect 30 410 775 420.

Definition ACTION_TABLE_MAX_VISIBLE : Z := 11.

(** [App.scroll_actions] (lines 858-864), the field [action_scroll_offset]
    passed in and returned. *)
Definition scroll_actions (delta : Z) (action_scroll_offset : Z) (self : App) : Z :=
  let n := Z.of_nat (length (actions self)) in
  if n <=? ACTION_TABLE_MAX_VISIBLE then 0
  else
    let max_offset := n - ACTION_TABLE_MAX_VISIBLE in
    let new_offset := action_scroll_offset + delta in
    Z.max 0 (Z.min new_offset max_offset).

(** The fields of [App] that [handle_table_event] reads and writes besides
    the list and the selection. The two rectangles are the ones
    [draw_action_table] left: [None] while the list fits in the table. *)
Record TableView : Type := mkTableView {
  action_scroll_offset : Z;
  action_scrollbar_thumb_rect : option Rect;
  action_scrollbar_track_rect : option Rect;
  action_scroll_dragging : bool;
  action_scroll_drag_offset : Z;
}.

Definition with_scroll_offset (v : Z) (tv : TableView) : TableView :=
  mkTableView v (action_scrollbar_thumb_rect tv) (action_scrollbar_track_rect tv)
    (action_scroll_dragging tv) (action_scroll_drag_offset tv).

(** [action_scroll_dragging = True] and [action_scroll_drag_offset = offset]. *)
Definition with_drag (offset : Z) (tv : TableView) : TableView :=
  mkTableView (action_scroll_offset tv) (action_scrollbar_thumb_rect tv)
    (action_scrollbar_track_rect tv) true offset.

(** [if rect]: the rectangle is there and neither its width nor its height
    is zero. *)
Definition rect_present (r : option Rect) : option Rect :=
  match r with
  | Some r => if (rect_width r =? 0) || (rect_height r =? 0) then None else Some r
  | None => None
  end.

(** [rect and rect.collidepoint(pos)]. *)
Definition rect_hit (r : option Rect) (pos : Z * Z) : option Rect :=
  match rect_present r with
  | Some r => if collidepoint r pos then Some r else None
  | None => None
  end.

(** [n / d] for two [int]s, [d] positive: the float nearest to the
    quotient. *)
Definition int_true_div (n d : Z) : spec_float :=
  match n, d with
  | Zpos m, Zpos k => SFdiv 53 1024 (S754_finite false m 0) (S754_finite false k 0)
  | Zneg m, Zpos k => SFdiv 53 1024 (S754_finite true m 0) (S754_finite false k 0)
  | _, _ => S754_zero false
  end.

(** [round(f)]: the nearest integer, the even one of two that are as near. *)
Definition py_round (f : spec_float) : result Z :=
  match f with
  | S754_zero _ => Ok 0
  | S754_infinity _ => Raise OverflowError
  | S754_nan => Raise ValueError
  | S754_finite s m e =>
      Ok (cond_Zopp s
            (if 0 <=? e then Z.shiftl (Zpos m) e
             else
               let d := Z.shiftl 1 (- e) in
               let q := Zpos m / d in
               match 2 * (Zpos m mod d) ?= d with
               | Lt => q
               | Gt => q + 1
               | Eq => if Z.even q then q else q + 1
               end))
  end.

(** [max(0.0, min(1.0, ratio))]. *)
Definition clamp_ratio (ratio : spec_float) : spec_float :=
  let one := S754_finite false 4503599627370496 (-52) in
  let ratio := if SFltb ratio one then ratio else one in
  if SFltb (S754_zero false) ratio then ratio else S754_zero false.

(** [App.set_scroll_offset_from_thumb_position] (lines 866-878). *)
Definition set_scroll_offset_from_thumb_position (thumb_y : Z) (tv : TableView)
    (self : App) : result TableView :=
  match rect_present (action_scrollbar_track_rect tv),
        rect_present (action_scrollbar_thumb_rect tv) with
  | Some track, Some thumb =>
      let thumb_height := rect_height thumb in
      let available_pixels := rect_height track - thumb_height in
      if available_pixels <=? 0 then Ok (with_scroll_offset 0 tv)
      else
        let ratio := int_true_div (thumb_y - rect_y track) available_pixels in
        let ratio := clamp_ratio ratio in
        let max_offset :=
          Z.max 0 (Z.of_nat (length (actions self)) - ACTION_TABLE_MAX_VISIBLE) in
        offset ← py_round (SFmul 53 1024 ratio
                             (binary_normalize 53 1024 max_offset 0 false));
        Ok (with_scroll_offset offset tv)
  | _, _ => Ok tv
  end.

(** The part of [handle_table_event] that selects the row under a left
    click (lines 823-838). *)
Definition table_select (pos : Z * Z) (tv : TableView) (self : App) : App :=
  if collidepoint ACTION_TABLE_RECT pos then
    let header_height := 40 in
    let row_height := 32 in
    let relative_y := snd pos - (rect_y ACTION_TABLE_RECT + header_height) in
    if relative_y <? 0 then set_selected_action_index None self
    else
      let row_index := relative_y / row_height in
      if row_index <=? 0 then set_selected_action_index None self
      else
        let actual_index := action_scroll_offset tv + row_index - 1 in
        if (0 <=? actual_index) && (actual_index <? Z.of_nat (length (actions self)))
        then set_selected_action_index (Some (Z.to_nat actual_index)) self
        else set_selected_action_index None self
  else self.

(** The branch of [handle_table_event] for the press of the left button
    (lines 808-838): a press on the thumb of the scrollbar starts a drag, a
    press on its track moves the thumb there, and both return before the
    table is looked at; any other press selects the row under it. *)
Definition table_click (pos : Z * Z) (tv : TableView) (self : App)
  : result (TableView * App) :=
  match rect_hit (action_scrollbar_thumb_rect tv) pos with
  | Some thumb => Ok (with_drag (snd pos - rect_y thumb) tv, self)
  | None =>
      match rect_hit (action_scrollbar_track_rect tv) pos with
      | Some track =>
          match rect_present (action_scrollbar_thumb_rect tv) with
          | Some thumb =>
              let thumb_height := rect_height thumb in
              let new_thumb_y := snd pos - thumb_height / 2 in
              let new_thumb_y :=
                Z.max (rect_y track)
                  (Z.min (rect_y track + rect_height track - thumb_height)
                         new_thumb_y) in
              tv ← set_scroll_offset_from_thumb_position new_thumb_y tv self;
              Ok (with_drag (snd pos - new_thumb_y) tv, self)
          | None => Ok (tv, self)
          end
      | None => Ok (tv, table_select pos tv self)
      end
  end.

(** What the pointer listener of [_region_selection_worker] ends with: an
    exception, or the points recorded at the left press and at the left
    release, either of which may be missing. *)
Inductive listener_outcome : Type :=
  | ListenerRaised (exc : pyexc)
  | ListenerReturned (start finish : option (Z * Z)).

(** [App._region_selection_worker] from the return of the listener on
    (lines 1190-1212). *)
Definition region_selection_worker (outcome : listener_outcome) (self : App) : App :=
  match outcome with
  | ListenerRaised exc =>
      set_region_setting_in_progress false
        (set_status [Lit "Region selection failed: "; ShowExc exc] self)
  | ListenerReturned start finish =>
      let self := set_region_setting_in_progress false self in
      match start, finish with
      | Some (x1, y1), Some (x2, y2) =>
          let left := Z.min x1 x2 in
          let top := Z.min y1 y2 in
          let width := Z.abs (x2 - x1) in
          let height := Z.abs (y2 - y1) in
          let self :=
            if (width <? 10) || (height <? 10) then
              set_search_region None
                (set_status [Lit "Region too small. Using full screen."] self)
            else
              set_status [Lit "Region set to ("; ShowInt left; Lit ", "; ShowInt top;
                          Lit ") size "; ShowInt width; Lit "x"; ShowInt height;
                          Lit "."]
                (set_search_region (Some (left, top, width, height)) self) in
          set_region_message (format_region_message self) self
      | _, _ => set_status [Lit "Region selection cancelled."] self
      end
  end.

(** The state and the number of threads blocked in the pointer listener. *)
Record RegionWorld : Type := mkRegionWorld {
  region_app : App;
  listeners : nat;
}.

(** [App.start_region_selection] (lines 1165-1173); [pynput_mouse] tells
    whether the package was imported. *)
Definition start_region_selection (pynput_mouse : bool) (rw : RegionWorld)
  : RegionWorld :=
  let self := region_app rw in
  if negb pynput_mouse then
    mkRegionWorld (set_status [Lit "Install 'pynput' to enable region selection."] self)
                  (listeners rw)
  else if region_setting_in_progress self then rw
  else
    let self := set_region_setting_in_progress true self in
    let self := set_status [Lit "Drag with left mouse to set search region..."] self in
    mkRegionWorld self (S (listeners rw)).

Definition use_full_screen (self : App) : App :=
  set_status [Lit "Search mode set to full screen."]
    (set_region_message [Lit "Use Full Screen"] (set_search_region None self)).

(** What happens to the region: the interactive thread asks for a selection
    or for the full screen, or the listener of a selection thread ends. *)
Inductive region_event : Type :=
  | AskSelection
  | AskFullScreen
  | ListenerEnds (outcome : listener_outcome).

Definition apply_region_event (pynput_mouse : bool) (e : region_event)
    (rw : RegionWorld) : RegionWorld :=
  match e with
  | AskSelection => start_region_selection pynput_mouse rw
  | AskFullScreen => mkRegionWorld (use_full_screen (region_app rw)) (listeners rw)
  | ListenerEnds outcome =>
      match listeners rw with
      | O => rw
      | S n => mkRegionWorld (region_selection_worker outcome (region_app rw)) n
      end
  end.

Definition run_region (pynput_mouse : bool) (trace : list region_event)
    (rw : RegionWorld) : RegionWorld :=
  foldl (λ rw e, apply_region_event pynput_mouse e rw) rw trace.

(** ** The widgets of [ui_components.py] *)

Module Ui.

(** The events the widgets look at. *)
Inductive key : Type := K_RETURN | K_ESCAPE | K_BACKSPACE | K_OTHER.

Inductive event : Type :=
  | MOUSEBUTTONDOWN (button : Z) (pos : Z * Z)
  | KEYDOWN (k : key) (unicode : string)
  | OTHER.

Record TextInput : Type := mkTextInput {
  rect : Rect;
  text : string;
  placeholder : string;
  numeric : bool;
  allow_negative : bool;
  active : bool;
  disabled : bool;
  max_length : option nat;
}.

Definition with_text (v : string) (self : TextInput) : TextInput :=
  mkTextInput (rect self) v (placeholder self) (numeric self) (allow_negative self)
    (active self) (disabled self) (max_length self).

Definition with_active (v : bool) (self : TextInput) : TextInput :=
  mkTextInput (rect self) (text self) (placeholder self) (numeric self)
    (allow_negative self) v (disabled self) (max_length self).

Definition set_placeholder (v : string) (self : TextInput) : TextInput :=
  mkTextInput (rect self) (text self) v (numeric self) (allow_negative self)
    (active self) (disabled self) (max_length self).

Definition clear (self : TextInput) : TextInput := with_text "" self.

Definition set_disabled (value : bool) (self : TextInput) : TextInput :=
  let self :=
    mkTextInput (rect self) (text self) (placeholder self) (numeric self)
      (allow_negative self) (active self) value (max_length self) in
  if value then with_active false self else self.

(** [s[:-1]]. *)
Definition drop_last (s : string) : string :=
  string_of_list_ascii (removelast (list_ascii_of_string s)).

Section TextInputEvents.

(** [c.isdigit()] for one character. *)
Variable digit_char : ascii -> bool.

(** [s.isdigit()]: not empty and every character a digit. *)
Definition isdigit (s : string) : bool :=
  str_truthy s && forallb digit_char (list_ascii_of_string s).

(** ["-" in s]. *)
Definition has_minus (s : string) : bool :=
  existsb (Ascii.eqb "-"%char) (list_ascii_of_string s).

Definition text_input_handle_event (ev : event) (self : TextInput) : TextInput :=
  if disabled self then self
  else
    match ev with
    | MOUSEBUTTONDOWN _ pos => with_active (collidepoint (rect self) pos) self
    | KEYDOWN k unicode =>
        if active self then
          match k with
          | K_RETURN | K_ESCAPE => with_active false self
          | K_BACKSPACE => with_text (drop_last (text self)) self
          | K_OTHER =>
              if numeric self then
                if isdigit unicode then with_text (text self +:+ unicode) self
                else if String.eqb unicode "-" && allow_negative self
                        && negb (has_minus (text self))
                        && (String.length (text self) =? 0)%nat
                then with_text (text self +:+ "-") self
                else self
              else if str_truthy unicode && negb (String.eqb unicode (String "013" ""))
              then
                match max_length self with
                | None => with_text (text self +:+ unicode) self
                | Some n =>
                    if (String.length (text self) <? n)%nat
                    then with_text (text self +:+ unicode) self
                    else self
                end
              else self
          end
        else self
    | OTHER => self
    end.

End TextInputEvents.

Record Dropdown : Type := mkDropdown {
  dd_rect : Rect;
  options : list string;
  selected_index : nat;
  expanded : bool;
  dd_disabled : bool;
}.

Definition with_selected (i : nat) (self : Dropdown) : Dropdown :=
  mkDropdown (dd_rect self) (options self) i (expanded self) (dd_disabled self).

Definition with_expanded (v : bool) (self : Dropdown) : Dropdown :=
  mkDropdown (dd_rect self) (options self) (selected_index self) v (dd_disabled self).

(** [Dropdown.get_selected]; [None] stands for the [IndexError] of an
    index past the options. *)
Definition get_selected (self : Dropdown) : option string :=
  match options self with
  | [] => Some ""
  | _ :: _ => options self !! selected_index self
  end.

(** The rectangle of option [idx] of the expanded list. *)
Definition option_rect (self : Dropdown) (idx : nat) : Rect :=
  mkRect (rect_x (dd_rect self))
         (rect_y (dd_rect self) + (Z.of_nat idx + 1) * rect_height (dd_rect self))
         (rect_width (dd_rect self)) (rect_height (dd_rect self)).

(** [Dropdown._option_at]: the first option whose rectangle holds [pos]. *)
Definition option_at (self : Dropdown) (pos : Z * Z) : option nat :=
  List.find (λ idx, collidepoint (option_rect self idx) pos)
            (seq 0 (length (options self))).

(** [options.index(value)]. *)
Fixpoint index_of (value : string) (l : list string) : option nat :=
  match l with
  | [] => None
  | x :: l' => if String.eqb x value then Some O else S <$> index_of value l'
  end.

(** [Dropdown.handle_event]. [on_change] is the callback of the widget, if
    it has one, by its effect on the widget itself: it is called in the
    middle of the handler, with the new selection, and may select another
    option before the handler collapses the list. The result is the
    widget, the value returned and the argument [on_change] was called
    with, if it was called; [None] stands for the [IndexError] of
    [get_selected]. *)
Definition dropdown_handle_event (on_change : option (string -> Dropdown -> Dropdown))
    (ev : event) (self : Dropdown) : option (Dropdown * bool * option string) :=
  if dd_disabled self then Some (self, false, None)
  else
    match ev with
    | MOUSEBUTTONDOWN button pos =>
        if button =? 1 then
          if collidepoint (dd_rect self) pos
          then Some (with_expanded (negb (expanded self)) self, true, None)
          else if expanded self then
            match option_at self pos with
            | Some clicked =>
                let self := with_selected clicked self in
                match on_change with
                | Some callback =>
                    match get_selected self with
                    | Some value =>
                        Some (with_expanded false (callback value self), true,
                              Some value)
                    | None => None
                    end
                | None => Some (with_expanded false self, true, None)
                end
            | None => Some (with_expanded false self, true, None)
            end
          else Some (self, false, None)
        else if expanded self then Some (with_expanded false self, true, None)
        else Some (self, false, None)
    | _ => Some (self, false, None)
    end.

(** [Dropdown.set_selected_by_value]: the widget and the argument
    [on_change] is called with, if it is called. *)
Definition set_selected_by_value (value : string) (invoke_callback : bool)
    (self : Dropdown) : Dropdown * option (option string) :=
  match index_of value (options self) with
  | None => (self, None)
  | Some new_index =>
      let changed := negb (Nat.eqb new_index (selected_index self)) in
      let self := with_selected new_index self in
      if invoke_callback && changed then (self, Some (get_selected self))
      else (self, None)
  end.

(** What the callback of the scope dropdown, [on_hotkey_scope_change], does
    to the dropdown it is called from when the global hotkeys cannot be
    registered (lines 953 and 965):
    [set_selected_by_value(value, invoke_callback=False)]. *)
Definition reselect (value : string) (chosen : string) (self : Dropdown) : Dropdown :=
  fst (set_selected_by_value value false self).

End Ui.

(** ** [App.on_action_change] (lines 909-931) *)

Module Panel.

(** The three inputs of the action form, as widgets, and the hint. *)
Record ActionPanel : Type := mkActionPanel {
  action_text_input : Ui.TextInput;
  pos_x_input : Ui.TextInput;
  pos_y_input : Ui.TextInput;
  action_hint : string;
}.

Definition on_action_change (action_name : string) (self : ActionPanel) : ActionPanel :=
  let definition := dict_lookup ACTION_DEFINITIONS action_name in
  let text_input :=
    if definition_flag requires_text definition then
      let placeholder :=
        if String.eqb action_name "Type Text" then "Enter text" else "Key or combo" in
      Ui.set_disabled false (Ui.set_placeholder placeholder (action_text_input self))
    else
      Ui.clear (Ui.set_disabled true
                  (Ui.set_placeholder "Add Text / Key" (action_text_input self))) in
  let '(x_input, y_input) :=
    if definition_flag requires_position definition
       || definition_flag optional_position definition
    then (Ui.set_disabled false (pos_x_input self),
          Ui.set_disabled false (pos_y_input self))
    else (Ui.clear (Ui.set_disabled true (pos_x_input self)),
          Ui.clear (Ui.set_disabled true (pos_y_input self))) in
  mkActionPanel text_input x_input y_input
    (match definition with Some d => description d | None => "" end).

End Panel.

(** ** The vocabulary of the further properties *)

(** The selection is empty or the index of an action. *)
Definition selection_valid (self : App) : Prop :=
  match selected_action_index self with
  | None => True
  | Some i => (i < length (actions self))%nat
  end.

(** What the user does to the action list: fill in the form, add, delete,
    load a file, press the left button over the table with the scrollbar in
    some state. A press that raises leaves the state as it was: only the
    move of the thumb can raise, and it does not touch the state. *)
Inductive edit : Type :=
  | FillForm (f : ActionForm)
  | AddAction
  | DeleteAction
  | LoadActions (source : load_source)
  | ClickTable (pos : Z * Z) (tv : TableView).

Definition apply_edit (json_loads : string -> result pyval) (e : edit) (self : App)
  : App :=
  match e with
  | FillForm f => set_form f self
  | AddAction => add_action self
  | DeleteAction => delete_action self
  | LoadActions source => load_actions json_loads source self
  | ClickTable pos tv =>
      match table_click pos tv self with
      | Ok (_, self) => self
      | Raise _ => self
      end
  end.

Definition run_edits (json_loads : string -> result pyval) (edits : list edit)
    (self : App) : App :=
  foldl (λ self e, apply_edit json_loads e self) self edits.

(** The scrollbar where [draw_action_table] puts it (lines 762-776): the
    track and the thumb, when they are there, are 10 pixels wide from
    [table.right - 22], that is from x = 783. *)
Definition scrollbar_as_drawn (tv : TableView) : Prop :=
  ∀ r, action_scrollbar_thumb_rect tv = Some r ∨ action_scrollbar_track_rect tv = Some r →
       rect_x r = 783 ∧ rect_width r = 10.

(** The flag [region_setting_in_progress] is set exactly while one thread
    is in the pointer listener, and there is never a second one. *)
Definition one_listener (rw : RegionWorld) : Prop :=
  listeners rw = if region_setting_in_progress (region_app rw) then 1%nat else 0%nat.

(** The text of a numeric input: digits, after one minus sign if the input
    allows negative numbers. *)
Definition numeric_text (digit_char : ascii -> bool) (allow_negative : bool)
    (s : string) : bool :=
  let l := list_ascii_of_string s in
  forallb digit_char l
  || (allow_negative
      && match l with
         | c :: rest => Ascii.eqb c "-"%char && forallb digit_char rest
         | [] => false
         end).

(** The selected index of a dropdown is one of its options. *)
Definition index_ok (d : Ui.Dropdown) : Prop :=
  Ui.options d = [] ∨ (Ui.selected_index d < length (Ui.options d))%nat.

(** The input a step of a worker at [pc] waits for: the answers of the
    capture and matching collaborators while it is in a detection cycle,
    the end of [execute_actions] while it is in it; an exception ends
    either. The other steps wait for nothing. *)
Definition answers (pc : worker_pc) (input : worker_input) : bool :=
  match pc, input with
  | InDetection, (Answers _ _ | Crash _) => true
  | InDetection, _ => false
  | InExecution _, (Executed _ | Crash _) => true
  | InExecution _, _ => false
  | _, _ => true
  end.

(** A thread running [automation_loop] takes [n] steps with no other
    thread in between, [next] giving the input of each. *)
Fixpoint worker_steps (env : Imports) (next : worker_pc -> worker_input) (n : nat)
    (st : worker_pc * App) : worker_pc * App :=
  match n with
  | O => st
  | S n' =>
      worker_steps env next n' (automation_loop_step env (next (fst st)) (fst st) (snd st))
  end.

(** The number of calls to the injection collaborator among the events. *)
Definition is_injection (e : exec_event) : bool :=
  match e with
  | Injected _ => true
  | _ => false
  end.

Definition injections (evs : list exec_event) : nat :=
  length (List.filter is_injection evs).

(** The step is not a [Wait]: [execute_actions] hands it to
    [perform_action]. *)
Definition acts (a : ActionItem) : bool :=
  match action_type a with
  | VStr s => negb (String.eqb s "Wait")
  | _ => true
  end.

(* ===================================================================== *)
(** * Part II. Properties                                                 *)
(* ===================================================================== *)

(** ** Dictionaries *)

Lemma dict_lookup_set_eq {A : Type} (d : list (string * A)) key v :
  dict_lookup (dict_set d key v) key = Some v.
Proof.
  induction d as [|[k w] d IH]; simpl.
  - by rewrite String.eqb_refl.
  - destruct (String.eqb k key) eqn:E; simpl; rewrite E; [done | apply IH].
Qed.

Lemma dict_lookup_set_ne {A : Type} (d : list (string * A)) key key' v :
  key ≠ key' → dict_lookup (dict_set d key v) key' = dict_lookup d key'.
Proof.
  intros Hne. induction d as [|[k w] d IH]; simpl.
  - destruct (String.eqb key key') eqn:E; [|done].
    apply String.eqb_eq in E. contradiction.
  - destruct (String.eqb k key) eqn:E; simpl.
    + apply String.eqb_eq in E. subst k.
      destruct (String.eqb key key') eqn:E'; [|done].
      apply String.eqb_eq in E'. contradiction.
    + by rewrite IH.
Qed.

Lemma str_truthy_false (s : string) : str_truthy s = false → s = "".
Proof.
  unfold str_truthy. intros H. apply negb_false_iff in H.
  by apply String.eqb_eq.
Qed.

Lemma str_truthy_true (s : string) : str_truthy s = true → s ≠ "".
Proof.
  unfold str_truthy. intros H Hs. subst s. discriminate.
Qed.

(** ** Authoring *)

Lemma parse_positive_int_nonneg (text : string) (n : Z) :
  parse_positive_int text = Some n → 0 ≤ n.
Proof.
  unfold parse_positive_int. destruct (parse_int text) as [m|]; [|done].
  destruct (m <? 0) eqn:E; [done|]. intros [= <-]. lia.
Qed.

(** The position step either rejects the request with one of the known
    statuses or extends the parameters; for an action that requires a
    position the extension holds both coordinates. *)
Lemma add_action_position_cases definition x_text y_text :
  match add_action_position definition x_text y_text [] with
  | inl failure => failure ∈ validation_failures
  | inr params =>
      dict_lookup params "text" = None
      ∧ dict_lookup params "duration_ms" = None
      ∧ (definition_flag requires_position definition = true →
         (∃ z, dict_lookup params "x" = Some (VInt z))
         ∧ (∃ z, dict_lookup params "y" = Some (VInt z)))
  end.
Proof.
  unfold add_action_position, validation_failures.
  destruct (definition_flag requires_position definition) eqn:Ereq;
    [|destruct (definition_flag optional_position definition);
      [destruct (str_truthy x_text), (str_truthy y_text); simpl|]];
    try destruct (parse_int x_text) as [x|];
    try destruct (parse_int y_text) as [y|];
    first [ set_solver
          | repeat split; first [done | eexists; reflexivity] ].
Qed.

(** The status of a rejected request is one of the listed ones. *)
Ltac listed_failure :=
  unfold validation_failures;
  repeat first [apply list_elem_of_here | apply list_elem_of_further].

Ltac rejected :=
  left; eexists; split; [|split; reflexivity]; listed_failure.

(** Claim C8. Every item [add_action] appends satisfies the invariants of
    the data model: its kind is the one selected in the dropdown, a
    [Move to Position] item carries both coordinates, a [Type Text] or
    [Press Key] item carries a text that is not empty, a [Wait] item
    carries a duration that is not negative and a zero delay. When a
    validation fails, the only effect is the status that reports it: the
    action sequence is unchanged. *)
Theorem add_action_validates (self : App) :
  (∃ failure, failure ∈ validation_failures
     ∧ add_action self = set_status failure self
     ∧ actions (add_action self) = actions self)
  ∨ (∃ a, actions (add_action self) = actions self ++ [a]
       ∧ action_type a = VStr (action_dropdown (form self))
       ∧ item_invariant a
       ∧ status_message (add_action self)
         = [Lit "Added action '"; ShowStr (action_dropdown (form self)); Lit "'."]).
Proof.
  unfold add_action.
  generalize (action_dropdown (form self)) as name. intros name.
  set (definition := dict_lookup ACTION_DEFINITIONS name).
  set (delay_text := strip (delay_input (form self))).
  assert (Hdelay : ∀ d,
    (if str_truthy delay_text then parse_positive_int delay_text
     else Some DEFAULT_ACTION_DELAY_MS) = Some d → 0 ≤ d).
  { intros d. destruct (str_truthy delay_text).
    - apply parse_positive_int_nonneg.
    - intros [= <-]. unfold DEFAULT_ACTION_DELAY_MS. lia. }
  destruct (if str_truthy delay_text then parse_positive_int delay_text
            else Some DEFAULT_ACTION_DELAY_MS) as [delay|] eqn:Edelay;
    [|rejected].
  specialize (Hdelay delay eq_refl).
  pose proof (add_action_position_cases definition
                (strip (pos_x_input (form self))) (strip (pos_y_input (form self)))) as Hpos.
  destruct (add_action_position definition _ _ []) as [failure|params].
  { left. exists failure. split; [done|split; reflexivity]. }
  destruct Hpos as (Htext & Hdur & Hxy).
  set (text_value := strip (action_text_input (form self))).
  destruct (definition_flag requires_text definition) eqn:Ereq;
    destruct (str_truthy text_value) eqn:Etext; simpl; [|rejected| |].
  all: destruct (String.eqb name "Wait") eqn:Ewait; simpl.
  all: try (destruct (delay <=? 0) eqn:Epos; [rejected|]).
  all: right; eexists; split; [reflexivity|]; split; [reflexivity|];
       split; [|reflexivity].
  all: unfold item_invariant, holds_int; simpl.
  all: split; [eexists; reflexivity|]; split; [lia|].
  all: clearbody text_value delay_text.
  all: split; [|split];
    [intros [= Hname] | intros [[= Hname]|[= Hname]] | intros [= Hname]].
  all: subst name; unfold definition in *.
  all: try (cbv in Ereq; discriminate).
  all: try (cbv in Ewait; discriminate).
  all: try (destruct (Hxy eq_refl) as [[x Hx] [y Hy]]).
  all: repeat split.
  all: try (eexists _, _; split; [reflexivity|]).
  all: rewrite ?dict_lookup_set_eq; try done.
  all: split; [reflexivity | by apply str_truthy_true].
Qed.


Lemma app_last_neq {A : Type} (l : list A) (x : A) : l ≠ l ++ [x].
Proof.
  intros H. apply (f_equal length) in H. rewrite length_app in H. simpl in H. lia.
Qed.


(** Requests the form can make, accepted and rejected. *)
Example add_wait_500 :
  actions (add_action (with_form "Wait" "" "" "" " 500 "))
  = [mkActionItem (VStr "Wait") (VDict [("duration_ms", VInt 500)]) 0].
Proof. reflexivity. Qed.

Example add_wait_0_rejected :
  add_action (with_form "Wait" "" "" "" "0")
  = set_status [Lit "Set a delay (ms) for the Wait action."]
      (with_form "Wait" "" "" "" "0").
Proof. reflexivity. Qed.

Example add_move_to_position :
  actions (add_action (with_form "Move to Position" "" "10" "-20" ""))
  = [mkActionItem (VStr "Move to Position")
       (VDict [("x", VInt 10); ("y", VInt (-20))]) 1000].
Proof. reflexivity. Qed.

Example add_move_without_y_rejected :
  add_action (with_form "Move to Position" "" "10" "" "")
  = set_status [Lit "This action requires X and Y coordinates."]
      (with_form "Move to Position" "" "10" "" "").
Proof. reflexivity. Qed.

Example add_blank_text_rejected :
  add_action (with_form "Type Text" "   " "" "" "5")
  = set_status [Lit "This action requires text or keys."]
      (with_form "Type Text" "   " "" "" "5").
Proof. reflexivity. Qed.

Example add_press_key :
  actions (add_action (with_form "Press Key" " ctrl+c " "" "" "5"))
  = [mkActionItem (VStr "Press Key") (VDict [("text", VStr "ctrl+c")]) 5].
Proof. reflexivity. Qed.

Example add_negative_delay_rejected :
  add_action (with_form "Left Click" "" "" "" "-5")
  = set_status [Lit "Delay must be a number in milliseconds."]
      (with_form "Left Click" "" "" "" "-5").
Proof. reflexivity. Qed.


(** ** Persistence *)

Lemma traverse_ok {A B : Type} (f : A → result B) (l : list A) (l' : list B) :
  traverse f l = Ok l' ↔ Forall2 (λ x y, f x = Ok y) l l'.
Proof.
  revert l'. induction l as [|x l IH]; intros l'; simpl.
  - split.
    + intros [= <-]. constructor.
    + intros H. by inversion H.
  - unfold mbind, result_bind. split.
    + destruct (f x) as [y|e] eqn:Ex; [|done].
      destruct (traverse f l) as [ys|e] eqn:El; [|done].
      intros [= <-]. constructor; [done|]. by apply IH.
    + intros H. inversion H as [|? y ? ys Hx Hl]; subst.
      rewrite Hx. apply IH in Hl. by rewrite Hl.
Qed.


(** Claim C7. Reading back the record [to_dict] writes for an item gives
    the item again, field for field: the kind, the parameter mapping and
    the integer delay. The parameters are a mapping, as the dataclass
    declares them. *)
Theorem from_dict_to_dict (a : ActionItem) :
  is_dict (params a) = true → from_dict (to_dict a) = Ok a.
Proof.
  destruct a as [ty p delay]. destruct p as [| | | | | |d]; try discriminate.
  intros _. destruct d; reflexivity.
Qed.

(** A left click at (10, 20) followed by 250 ms survives the round trip. *)
Lemma from_dict_to_dict_witness :
  let a := mkActionItem (VStr "Left Click") (VDict [("x", VInt 10); ("y", VInt 20)]) 250 in
  is_dict (params a) = true ∧ from_dict (to_dict a) = Ok a.
Proof.
  intros a. split; [reflexivity|]. exact (from_dict_to_dict a eq_refl).
Defined.

Lemma traverse_from_dict_to_dict (l : list ActionItem) :
  Forall (λ a, is_dict (params a) = true) l →
  traverse from_dict (to_dict <$> l) = Ok l.
Proof.
  induction 1 as [|a l Ha _ IH]; [done|].
  apply traverse_ok. constructor; [by apply from_dict_to_dict|].
  by apply traverse_ok.
Qed.

(** [from_dict] on a dict: what each missing field defaults to. *)
Lemma from_dict_defaults (d : list (string * pyval)) :
  from_dict (VDict d)
  = (delay ← py_int (default (VInt 0) (dict_lookup d "delay_ms"));
     Ok (mkActionItem
           (default (VStr "") (dict_lookup d "action_type"))
           (let got := default (VDict []) (dict_lookup d "params") in
            if truthy got then got else VDict [])
           delay)).
Proof. reflexivity. Qed.

Lemma actions_apply_region r self : actions (apply_region r self) = actions self.
Proof. by destruct r as [[|a [|b [|c [|d [|]]]]]|]. Qed.

Lemma actions_apply_similarity v self : actions (apply_similarity v self) = actions self.
Proof. by destruct v. Qed.



Section PersistenceFacts.

Variable json_loads : string → result pyval.


(** The flat format keeps a row whose parameters do not parse, with the
    empty mapping, and reads a delay that is not a natural number as 0. *)
Lemma load_csv_row_defaults (kind params_text delay_text : string) :
  json_loads params_text = Raise JSONDecodeError →
  parse_positive_int delay_text = None →
  load_csv_row json_loads
    [("action_type", Some kind); ("params", Some params_text);
     ("delay_ms", Some delay_text)]
  = Ok (mkActionItem (VStr kind) (VDict []) 0).
Proof.
  intros Hp Hd. unfold load_csv_row. simpl. rewrite Hp, Hd. reflexivity.
Qed.

(** Property X23. What [save_actions] writes, [load_actions] reads back:
    the actions as they were, the similarity within the bounds of the
    slider, the region when there was one; a file saved with the full
    screen leaves the region of the loading state as it is. *)
Lemma save_load_round_trip (saved self : App) :
  Forall (λ a, is_dict (params a) = true) (actions saved) →
  let loaded := load_actions json_loads (JsonFile (Ok (save_payload saved))) self in
  actions loaded = actions saved
  ∧ similarity_slider loaded = slider_set_value (similarity_slider saved)
  ∧ search_region loaded
    = match search_region saved with
      | Some r => Some r
      | None => search_region self
      end.
Proof.
  intros Hall.
  unfold load_actions, load_json, load_records, load_region, load_similarity,
    save_payload. simpl.
  unfold mbind, result_bind. simpl.
  rewrite (traverse_from_dict_to_dict _ Hall).
  destruct (search_region saved) as [[[[x y] w] h]|]; simpl; done.
Qed.

End PersistenceFacts.


(** ** Detection *)

Lemma float_ge_eq (a b : spec_float) : SFeqb a b = true → float_ge a b = true.
Proof.
  unfold SFeqb, float_ge. by destruct (SFcompare a b) as [[]|].
Qed.

(** When a cycle gets a frame and a score, the state is untouched and the
    outcome is decided by the comparison with the threshold alone. *)
Lemma perform_detection_cycle_scored env screenshot s loc self r self' :
  perform_detection_cycle env screenshot (Ok (s, loc)) self = (Some r, self') →
  self' = self
  ∧ ∃ h w, target_image_cv self = Some (h, w)
     ∧ r = if float_ge s (similarity_threshold self)
           then Matched (fst (capture_offset self) + fst loc + w / 2,
                         snd (capture_offset self) + snd loc + h / 2) s
           else NotMatched s.
Proof.
  unfold perform_detection_cycle, capture_screen, capture_offset.
  destruct (target_image_cv self) as [[h w]|]; [|done].
  destruct (pyautogui env), (cv2 env), (np env); simpl; try done.
  destruct screenshot as [[]|exc]; simpl; [|done].
  destruct (float_ge s (similarity_threshold self)); intros [= <- <-];
    (split; [done|]); exists h, w; (split; [done|]);
    by destruct (search_region self) as [[[[x y] rw] rh]|].
Qed.



(** Claim C4. The center reported with a match is, on each axis, the
    offset of the captured area plus the best location plus half the size
    of the reference image, the half taken by floor division. *)
Theorem match_center_formula env screenshot s loc self center score self' h w :
  target_image_cv self = Some (h, w) →
  perform_detection_cycle env screenshot (Ok (s, loc)) self
    = (Some (Matched center score), self') →
  center = (fst (capture_offset self) + fst loc + w / 2,
            snd (capture_offset self) + snd loc + h / 2)
  ∧ 2 * (w / 2) ≤ w < 2 * (w / 2) + 2
  ∧ 2 * (h / 2) ≤ h < 2 * (h / 2) + 2.
Proof.
  intros Himg H.
  apply perform_detection_cycle_scored in H as (_ & h' & w' & Himg' & Hr).
  rewrite Himg in Himg'. injection Himg' as <- <-.
  split; [|split].
  - destruct (float_ge s (similarity_threshold self)); [|done].
    by injection Hr as -> _.
  - pose proof (Z.div_mod w 2 ltac:(lia)). pose proof (Z.mod_pos_bound w 2 ltac:(lia)). lia.
  - pose proof (Z.div_mod h 2 ltac:(lia)). pose proof (Z.mod_pos_bound h 2 ltac:(lia)). lia.
Qed.

(** The example of the specification: a 40 by 30 reference matched with
    full confidence at (200, 150) under the offset (0, 0) has its center at
    (220, 165). *)
Lemma match_center_formula_witness :
  perform_detection_cycle full_imports (Ok tt) (Ok (float_one, (200, 150)))
    sample_detect_app
  = (Some (Matched (220, 165) float_one), sample_detect_app)
  ∧ (220, 165) = (0 + 200 + 40 / 2, 0 + 150 + 30 / 2).
Proof.
  split; [reflexivity|].
  exact (proj1 (match_center_formula full_imports (Ok tt) float_one (200, 150)
                  sample_detect_app (220, 165) float_one sample_detect_app 30 40
                  eq_refl eq_refl)).
Defined.

(** ** Hotkey scope *)

Lemma holds_false_iff (kb : Provider) (handle : nat) :
  holds kb handle = false ↔ ∀ r, r ∈ registrations kb → fst r ≠ handle.
Proof.
  unfold holds. rewrite <- not_true_iff_false, existsb_exists. split.
  - intros Hno r Hr Heq. apply Hno. exists r. split.
    + by apply list_elem_of_In.
    + by apply Nat.eqb_eq.
  - intros Hall (r & Hr & Heq). apply Nat.eqb_eq in Heq.
    apply (Hall r); [by apply list_elem_of_In | done].
Qed.

Lemma remove_hotkey_registrations handle kb r :
  r ∈ registrations (snd (remove_hotkey handle kb))
  ↔ r ∈ registrations kb ∧ fst r ≠ handle.
Proof.
  unfold remove_hotkey. destruct (holds kb handle) eqn:E; simpl.
  - rewrite list_elem_of_filter. tauto.
  - split; [|tauto]. intros Hr. split; [done|].
    by apply (proj1 (holds_false_iff kb handle) E).
Qed.

Lemma remove_hotkey_calls handle kb :
  ∃ removed, calls (snd (remove_hotkey handle kb)) = calls kb ++ [CallRemove handle removed].
Proof.
  unfold remove_hotkey. destruct (holds kb handle); simpl; by eexists.
Qed.

Lemma remove_each_registrations handles kb r :
  r ∈ registrations (remove_each handles kb)
  ↔ r ∈ registrations kb ∧ fst r ∉ handles.
Proof.
  revert kb. induction handles as [|h handles IH]; intros kb; simpl.
  - split; [|tauto]. intros Hr. split; [done|]. apply not_elem_of_nil.
  - rewrite IH, remove_hotkey_registrations, not_elem_of_cons. tauto.
Qed.

Lemma remove_each_calls handles kb :
  ∃ removed, length removed = length handles
    ∧ calls (remove_each handles kb)
      = calls kb ++ zip_with CallRemove handles removed.
Proof.
  revert kb. induction handles as [|h handles IH]; intros kb; simpl.
  - exists []. by rewrite app_nil_r.
  - destruct (remove_hotkey_calls h kb) as [b Hb].
    destruct (IH (snd (remove_hotkey h kb))) as (bs & Hlen & Hbs).
    exists (b :: bs). split; [simpl; by rewrite Hlen|].
    rewrite Hbs, Hb, <- app_assoc. done.
Qed.

Section HotkeyFacts.

Variable known_key : string → bool.
Variable env : Imports.
Hypothesis provider_imported : keyboard_module env = true.

(** What [unregister_global_hotkeys] does achieve: the provider is asked
    once, in order, to remove each handle of the list, the list is emptied,
    and the registrations left are those that were not in the list. *)
Lemma unregister_global_hotkeys_tracked (self : App) (kb : Provider) :
  let st := unregister_global_hotkeys env (self, kb) in
  global_hotkey_handles (fst st) = []
  ∧ (∀ r, r ∈ registrations (snd st)
          ↔ r ∈ registrations kb ∧ fst r ∉ global_hotkey_handles self)
  ∧ (∃ removed, length removed = length (global_hotkey_handles self)
       ∧ calls (snd st)
         = calls kb ++ zip_with CallRemove (global_hotkey_handles self) removed).
Proof.
  unfold unregister_global_hotkeys. rewrite provider_imported. simpl.
  split; [done|]. split.
  - intros r. apply remove_each_registrations.
  - apply remove_each_calls.
Qed.

(** Property X17. A switch away from the global scope leaves no
    registration with the provider when every registration was in the
    handle list; the list is emptied and the scope is the one asked for. *)
Lemma scope_change_clears_tracked (scope : string) (self : App) (kb : Provider) :
  is_global scope = false →
  (∀ r, r ∈ registrations kb → fst r ∈ global_hotkey_handles self) →
  let st := on_hotkey_scope_change known_key env scope (self, kb) in
  registrations (snd st) = [] ∧ global_hotkey_handles (fst st) = []
  ∧ hotkey_scope (fst st) = scope.
Proof.
  intros Hscope Htracked. unfold on_hotkey_scope_change. rewrite Hscope.
  pose proof (unregister_global_hotkeys_tracked (set_hotkey_scope scope self) kb)
    as (Hlist & Hregs & _).
  destruct (unregister_global_hotkeys env (set_hotkey_scope scope self, kb))
    as [self' kb'] eqn:E. simpl in *.
  split; [|split].
  - apply elem_of_nil_inv. intros r Hr. apply Hregs in Hr as [Hr Hnot].
    apply Hnot. by apply Htracked.
  - done.
  - unfold unregister_global_hotkeys in E. rewrite provider_imported in E.
    simpl in E. by injection E as <- _.
Qed.

End HotkeyFacts.

(** Claim C9, evaluated where the program departs from it. In the sample
    session the last operation switches the scope from global to the
    application window. It removes the two handles of the list and empties
    the list, and the provider still holds the registration of F9 made by
    the earlier switch that failed half way: of the three registrations
    made, two were removed. *)
Theorem scope_session_leaves_registration :
  hotkey_scope (fst scope_session) = "Focused (in app)"
  ∧ global_hotkey_handles (fst scope_session) = []
  ∧ registrations (snd scope_session) = [(0%nat, ("f9", TriggerToggle))]
  ∧ calls (snd scope_session)
    = [CallAdd "f9" (Some 0%nat); CallAdd "numlock" None;
       CallAdd "f9" (Some 1%nat); CallAdd "f10" (Some 2%nat);
       CallRemove 1 true; CallRemove 2 true].
Proof. vm_compute. done. Qed.

(** ** The action executor *)



Lemma nothing_injected_app (l1 l2 : list exec_event) :
  nothing_injected (l1 ++ l2) = nothing_injected l1 && nothing_injected l2.
Proof. apply forallb_app. Qed.

Section ExecutorFacts.

Variable stop_flag : Z → bool.
Variable inject : injection → result Z.

(** The events a sleep adds: polls and sleeps of [POLL_MS], each sleep
    after a poll that found the flag clear; the clock does not go back. *)
Lemma sleep_loop_events fuel end_time ex ex' :
  sleep_loop stop_flag fuel end_time ex = Some ex' →
  clock ex ≤ clock ex'
  ∧ ∃ new, events ex' = events ex ++ new
      ∧ sleeps_polled false new = true ∧ nothing_injected new = true.
Proof.
  revert ex. induction fuel as [|fuel IH]; intros ex; simpl; [done|].
  destruct (before (clock ex) end_time).
  - destruct (stop_flag (clock ex)).
    + intros [= <-]. simpl. split; [lia|]. by eexists.
    + intros H. apply IH in H as (Hclock & new & Hev & Hpoll & Hinj).
      simpl in *. unfold POLL_MS in *. split; [lia|].
      exists ([Polled (clock ex) false; Slept 10] ++ new).
      split; [by rewrite Hev, <- app_assoc|]. split; [exact Hpoll|exact Hinj].
  - intros [= <-]. split; [lia|]. exists []. by rewrite app_nil_r.
Qed.


(** A sleep with a finite deadline returns, given fuel for its polls; when
    nobody sets the flag it lasts until the deadline. *)
Lemma sleep_loop_returns t n ex :
  t - clock ex ≤ POLL_MS * Z.of_nat n →
  ∃ ex', sleep_loop stop_flag (S n) (Until t) ex = Some ex'
    ∧ ((∀ now, stop_flag now = false) → clock ex ≤ t → t ≤ clock ex' < t + POLL_MS).
Proof.
  unfold POLL_MS. revert ex. induction n as [|n IH]; intros ex Hfuel.
  - simpl. destruct (clock ex <? t) eqn:E; [apply Z.ltb_lt in E; lia|].
    apply Z.ltb_ge in E. eexists. split; [done|]. lia.
  - cbn [sleep_loop before]. destruct (clock ex <? t) eqn:E.
    2:{ apply Z.ltb_ge in E. eexists. split; [done|]. lia. }
    apply Z.ltb_lt in E.
    destruct (stop_flag (clock ex)) eqn:Estop.
    + eexists. split; [done|]. intros Hnever. rewrite Hnever in Estop. discriminate.
    + destruct (IH (mkExec (clock ex + POLL_MS)
                      (events ex ++ [Polled (clock ex) false; Slept POLL_MS])))
        as (ex' & Hrun & Hfull).
      { simpl. unfold POLL_MS. lia. }
      exists ex'. split; [exact Hrun|]. intros Hnever _.
      simpl in Hfull. unfold POLL_MS in Hfull.
      destruct (Z.le_gt_cases (clock ex + 10) t) as [Hle|Hgt].
      * apply Hfull; done.
      * clear Hfull. destruct n; simpl in Hrun.
        -- assert (Hb : (clock ex + POLL_MS <? t) = false)
             by (apply Z.ltb_ge; unfold POLL_MS; lia).
           rewrite Hb in Hrun. injection Hrun as <-. simpl. unfold POLL_MS. lia.
        -- assert (Hb : (clock ex + POLL_MS <? t) = false)
             by (apply Z.ltb_ge; unfold POLL_MS; lia).
           rewrite Hb in Hrun. injection Hrun as <-. simpl. unfold POLL_MS. lia.
Qed.

Lemma call_events c ex ex' :
  call inject c ex = Ok ex' → events ex' = events ex ++ [Injected c].
Proof.
  unfold call, mbind, result_bind. destruct (inject c); [|done]. by intros [= <-].
Qed.






End ExecutorFacts.



(** ** The automation scheduler *)

Lemma active_workers_app (w : World) (pcs : list worker_pc) (self : App) :
  active_workers (mkWorld self (workers w ++ pcs))
  = (active_workers w + active_workers (mkWorld self pcs))%nat.
Proof. unfold active_workers. simpl. by rewrite filter_app, length_app. Qed.

Lemma active_insert (ws : list worker_pc) (tid : nat) (pc pc' : worker_pc) :
  ws !! tid = Some pc →
  (length (filter (λ pc, is_alive pc = true) (<[tid := pc']> ws))
   + (if is_alive pc then 1 else 0)
   = length (filter (λ pc, is_alive pc = true) ws)
     + (if is_alive pc' then 1 else 0))%nat.
Proof.
  revert tid. induction ws as [|x ws IH]; intros tid; [done|].
  destruct tid as [|tid]; simpl.
  - intros [= ->]. rewrite !filter_cons.
    destruct (decide (is_alive pc' = true)) as [->|Hn'];
      destruct (decide (is_alive pc = true)) as [->|Hn]; simpl;
      try (apply not_true_is_false in Hn; rewrite Hn);
      try (apply not_true_is_false in Hn'; rewrite Hn'); lia.
  - intros Hl. specialize (IH tid Hl). rewrite !filter_cons.
    destruct (decide (is_alive x = true)); simpl; lia.
Qed.

Section SchedulerFacts.

Variable env : Imports.

(** While [automation_running] is set, [start_automation] returns at its
    first test: no thread is started and nothing is written. *)
Lemma start_automation_running_noop (w : World) :
  automation_running (app w) = true → start_automation env w = w.
Proof. intros H. unfold start_automation. by rewrite H. Qed.

(** [start_automation] starts at most one thread, and none unless the
    running flag was clear. *)
Lemma start_automation_spawns (w : World) :
  workers (start_automation env w) = workers w
  ∨ (automation_running (app w) = false
     ∧ workers (start_automation env w) = workers w ++ [AtLoopTest]
     ∧ automation_running (app (start_automation env w)) = true
     ∧ stop_event (app (start_automation env w)) = false).
Proof.
  unfold start_automation.
  destruct (automation_running (app w)); [by left|].
  destruct (missing_packages env); [|by left].
  destruct (target_image_cv (app w)); [|by left].
  right. done.
Qed.

(** A worker that leaves its loop clears the running flag on its way out. *)
Lemma automation_loop_exit_clears input pc self :
  is_alive pc = true →
  fst (automation_loop_step env input pc self) = Exited →
  automation_running (snd (automation_loop_step env input pc self)) = false.
Proof.
  destruct pc; simpl; try done.
  - by destruct (stop_event self).
  - destruct input; try done.
    destruct (perform_detection_cycle env screenshot template self) as [[[]|] self'];
      done.
  - by destruct input as [| | |[]].
  - by destruct (stop_event self).
Qed.

Lemma perform_detection_cycle_running screenshot template self :
  automation_running (snd (perform_detection_cycle env screenshot template self))
  = automation_running self.
Proof.
  unfold perform_detection_cycle, capture_screen.
  destruct (target_image_cv self) as [[h w]|]; [|done].
  destruct (negb (pyautogui env) || negb (cv2 env) || negb (np env)); [done|].
  destruct (negb (pyautogui env)); [done|].
  destruct screenshot as [[]|exc]; simpl; [|done].
  destruct (negb (np env) || negb (cv2 env)); simpl; [done|].
  destruct template as [[s loc]|exc]; [|done].
  by destruct (float_ge s (similarity_threshold self)).
Qed.

(** A step of a live worker either keeps it alive and the running flag as
    it is, or ends it with the flag cleared; a thread that has exited
    stays so and changes nothing. *)
Lemma automation_loop_step_cases input pc self :
  let '(pc', self') := automation_loop_step env input pc self in
  (is_alive pc = false ∧ pc' = pc ∧ self' = self)
  ∨ (is_alive pc = true ∧ is_alive pc' = true
     ∧ automation_running self' = automation_running self)
  ∨ (is_alive pc = true ∧ pc' = Exited ∧ automation_running self' = false).
Proof.
  destruct pc; simpl.
  - destruct (stop_event self); [right; right|right; left]; done.
  - destruct input as [|screenshot template|exc|failure]; simpl;
      try (right; left; done); [|right; right; done].
    pose proof (perform_detection_cycle_running screenshot template self) as Hrun.
    destruct (perform_detection_cycle env screenshot template self)
      as [[[c s|s]|] self']; simpl in *; right; left; done.
  - destruct input as [| |exc|[failure|]]; simpl;
      try (right; left; done); right; right; done.
  - destruct (stop_event self); [right; right|right; left]; done.
  - right; left; done.
  - left; done.
Qed.

Lemma worker_step_single_flight tid input w :
  single_flight w → single_flight (worker_step env tid input w).
Proof.
  unfold worker_step. destruct (workers w !! tid) as [pc|] eqn:Hpc; [|done].
  pose proof (automation_loop_step_cases input pc (app w)) as Hstep.
  destruct (automation_loop_step env input pc (app w)) as [pc' self'].
  pose proof (active_insert (workers w) tid pc pc' Hpc) as Hcount.
  unfold single_flight, active_workers. simpl.
  destruct Hstep as [(Hdead & -> & ->)|[(Halive & Halive' & Hrun)|(Halive & -> & Hrun)]].
  - rewrite Hdead in Hcount. intros Hw. unfold active_workers in Hw.
    rewrite Nat.add_cancel_r in Hcount. by rewrite Hcount.
  - rewrite Halive, Halive' in Hcount. rewrite Nat.add_cancel_r in Hcount.
    rewrite Hcount, Hrun. done.
  - rewrite Halive in Hcount. simpl in Hcount. unfold active_workers.
    intros [Hw|[Hw _]]; left; lia.
Qed.

Lemma start_automation_single_flight w :
  single_flight w → single_flight (start_automation env w).
Proof.
  unfold start_automation.
  destruct (automation_running (app w)) eqn:Hrun; [done|].
  unfold single_flight. rewrite Hrun. intros [Hw|[_ [=]]].
  destruct (missing_packages env); [|by left].
  destruct (target_image_cv (app w)); [|by left].
  right. split; [|done].
  rewrite active_workers_app, Hw. done.
Qed.

(** Property X20. Single flight is kept by every operation but
    [stop_automation]: along any interleaving of starts, presses of the
    toggle hotkey and steps of the workers, at most one worker is inside
    [automation_loop], and the running flag is set while one is. *)
Lemma run_single_flight trace w :
  forallb (λ e, negb (is_stop e)) trace = true →
  single_flight w → single_flight (run env trace w).
Proof.
  unfold run. revert w. induction trace as [|e trace IH]; intros w; simpl; [done|].
  intros [He Htrace]%andb_true_iff Hw. apply IH; [done|].
  destruct e as [|wait schedule| |tid input]; simpl in *; [|done| |].
  - by apply start_automation_single_flight.
  - unfold toggle_run_from_hotkey.
    destruct (automation_running (app w)) eqn:Hrun;
      [|by apply start_automation_single_flight].
    unfold single_flight, active_workers in *. simpl.
    exact Hw.
  - by apply worker_step_single_flight.
Qed.

End SchedulerFacts.

(** Claim C1, evaluated where the program departs from it. In the sample
    session Stop is clicked while the worker sleeps between two cycles and
    Start is clicked before it wakes up. The stop call has cleared the
    running flag, so the second start is not the no-op it is while the flag
    is set: it clears the cancellation flag and starts a second thread. The
    first worker wakes up, finds the flag clear and goes on: two workers are
    inside [automation_loop]. *)
Theorem restart_session_runs_two_workers :
  workers (run full_imports restart_session sample_ready_world)
    = [InDetection; InDetection]
  ∧ active_workers (run full_imports restart_session sample_ready_world) = 2%nat
  ∧ stop_event (app (run full_imports restart_session sample_ready_world)) = false
  ∧ automation_running (app (run full_imports restart_session sample_ready_world))
    = true.
Proof. vm_compute. done. Qed.

(** Claim C5, evaluated where the program departs from it. Right after a
    start the worker is alive and has not run yet. [stop_automation]
    without [wait] sets the cancellation flag and returns with the worker
    where it was, as the claim says; but the call has cleared the running
    flag itself, on its way out, instead of leaving the transition to the
    worker: the state says idle while the worker is still inside
    [automation_loop], and single flight, which held before the call, is
    lost. This is the step that lets the restart of claim C1 start a second
    worker. The other stop path, [toggle_run_from_hotkey], does what the
    claim says: it sets the cancellation flag only, single flight is kept,
    and the running flag is cleared by the worker when it finds the
    cancellation flag set and leaves its loop. *)
Theorem stop_without_wait_clears_running_early :
  single_flight sample_running_world
  ∧ workers (stop_automation full_imports false [] sample_running_world) = [AtLoopTest]
  ∧ stop_event (app (stop_automation full_imports false [] sample_running_world)) = true
  ∧ automation_running (app (stop_automation full_imports false [] sample_running_world))
    = false
  ∧ ¬ single_flight (stop_automation full_imports false [] sample_running_world)
  ∧ stop_event (app (toggle_run_from_hotkey full_imports sample_running_world)) = true
  ∧ automation_running (app (toggle_run_from_hotkey full_imports sample_running_world))
    = true
  ∧ single_flight (toggle_run_from_hotkey full_imports sample_running_world)
  ∧ workers (worker_step full_imports 0 NoInput
               (toggle_run_from_hotkey full_imports sample_running_world)) = [Exited]
  ∧ automation_running
      (app (worker_step full_imports 0 NoInput
              (toggle_run_from_hotkey full_imports sample_running_world))) = false.
Proof.
  split; [by right|]. split; [reflexivity|]. split; [reflexivity|].
  split; [reflexivity|]. split.
  { intros [H|[_ H]]; vm_compute in H; discriminate H. }
  split; [reflexivity|]. split; [reflexivity|]. split; [by right|].
  split; reflexivity.
Qed.

(* ===================================================================== *)
(** * Part III. Further properties                                        *)
(* ===================================================================== *)

(** ** Editing the action list *)

(** [delete_action] with a selection that is an index of the list. *)
Lemma delete_action_at (self : App) (i : nat) (removed : ActionItem) :
  selected_action_index self = Some i →
  actions self !! i = Some removed →
  delete_action self
  = set_selected_action_index
      (match delete i (actions self) with
       | [] => None
       | _ :: _ => Some (Nat.min i (length (delete i (actions self)) - 1))
       end)
      (set_status [Lit "Removed action '"; ShowVal (action_type removed); Lit "'."]
         (set_actions (delete i (actions self)) self)).
Proof.
  intros Hsel Hi. unfold delete_action. rewrite Hsel, Hi.
  destruct (actions self) as [|a l] eqn:Hl; [done|].
  cbn [actions set_actions set_status set_status_message].
  by destruct (delete i (a :: l)).
Qed.

(** [delete_action] without such a selection leaves the list alone. *)
Lemma delete_action_without (self : App) :
  (selected_action_index self ≫= (actions self !!.)) = None →
  actions (delete_action self) = actions self.
Proof.
  unfold delete_action. intros H.
  destruct (actions self) as [|a l] eqn:Hl; [simpl; done|].
  destruct (selected_action_index self) as [i|]; [|simpl; done].
  simpl in H. rewrite H. simpl. done.
Qed.

(** Property X1. [delete_action] with a selection that is an index of the
    list removes exactly that action, keeping the others in order, names it
    in the status and moves the selection to the action that took its
    place, to the last action when the last one was removed, or to nothing
    when the list is now empty. With no selection, or one outside the list,
    the list is left as it is. *)
Theorem delete_action_removes_selected (self : App) :
  match selected_action_index self with
  | Some i =>
      match actions self !! i with
      | Some removed =>
          actions (delete_action self) = take i (actions self) ++ drop (S i) (actions self)
          ∧ S (length (actions (delete_action self))) = length (actions self)
          ∧ status_message (delete_action self)
            = [Lit "Removed action '"; ShowVal (action_type removed); Lit "'."]
          ∧ selected_action_index (delete_action self)
            = (if (length (actions self) =? 1)%nat then None
               else Some (Nat.min i (length (actions self) - 2)))
      | None => actions (delete_action self) = actions self
      end
  | None => actions (delete_action self) = actions self
  end.
Proof.
  destruct (selected_action_index self) as [i|] eqn:Hsel.
  2:{ apply delete_action_without. by rewrite Hsel. }
  destruct (actions self !! i) as [removed|] eqn:Hi.
  2:{ apply delete_action_without. by rewrite Hsel. }
  rewrite (delete_action_at self i removed Hsel Hi).
  cbn [actions selected_action_index status_message set_selected_action_index
       set_status set_status_message set_actions].
  pose proof (lookup_lt_Some _ _ _ Hi) as Hlt.
  assert (Hlen : S (length (delete i (actions self))) = length (actions self)).
  { rewrite length_delete by (by eexists). lia. }
  refine (conj (delete_take_drop _ _) (conj Hlen (conj eq_refl _))).
  destruct (delete i (actions self)) as [|b l'] eqn:Hd; simpl in Hlen.
  - by rewrite <- Hlen.
  - rewrite <- Hlen. simpl. f_equal; lia.
Qed.

(** What [add_action] does to the list and the selection. *)
Lemma add_action_outcome (self : App) :
  (actions (add_action self) = actions self
   ∧ selected_action_index (add_action self) = selected_action_index self)
  ∨ (∃ a, actions (add_action self) = actions self ++ [a]
       ∧ selected_action_index (add_action self) = Some (length (actions self))).
Proof.
  unfold add_action.
  destruct (if str_truthy _ then _ else _) as [delay|]; [|by left].
  destruct (add_action_position _ _ _ []) as [failure|params]; [by left|].
  destruct (_ && negb _); [by left|].
  destruct (_ && (delay <=? 0)); [by left|].
  right. eexists. split; [reflexivity|]. cbn.
  rewrite length_app. simpl. f_equal. lia.
Qed.

(** Property X2. Deleting right after a successful [add_action] undoes it:
    the new action is the selected one, so [delete_action] removes it and
    the list is the one from before. *)
Theorem add_then_delete (self : App) (a : ActionItem) :
  actions (add_action self) = actions self ++ [a] →
  actions (delete_action (add_action self)) = actions self
  ∧ status_message (delete_action (add_action self))
    = [Lit "Removed action '"; ShowVal (action_type a); Lit "'."].
Proof.
  intros Hadd.
  destruct (add_action_outcome self) as [[Hsame _]|(a' & _ & Hsel)].
  { rewrite Hsame in Hadd. by apply app_last_neq in Hadd. }
  assert (Hi : actions (add_action self) !! length (actions self) = Some a).
  { rewrite Hadd, lookup_app_r, Nat.sub_diag by lia. done. }
  rewrite (delete_action_at _ _ _ Hsel Hi). simpl. split; [|done].
  rewrite Hadd, delete_take_drop.
  rewrite take_app_length, drop_ge by (rewrite length_app; simpl; lia).
  by rewrite app_nil_r.
Qed.

(** The form asking for a [Wait] of 500 ms. *)
Lemma add_then_delete_witness :
  actions (add_action (with_form "Wait" "" "" "" "500"))
  = actions (with_form "Wait" "" "" "" "500")
    ++ [mkActionItem (VStr "Wait") (VDict [("duration_ms", VInt 500)]) 0]
  ∧ actions (delete_action (add_action (with_form "Wait" "" "" "" "500"))) = [].
Proof.
  split; [reflexivity|].
  exact (proj1 (add_then_delete (with_form "Wait" "" "" "" "500") _ eq_refl)).
Defined.

Section EditFacts.

Variable json_loads : string → result pyval.

Lemma selection_valid_load source self :
  selection_valid self → selection_valid (load_actions json_loads source self).
Proof.
  unfold load_actions, selection_valid.
  assert (Hst : ∀ msg s, selected_action_index (set_status msg s) = selected_action_index s
                         ∧ actions (set_status msg s) = actions s) by done.
  destruct source as [| |[payload|exc]|[rows|exc]]; try done.
  - unfold load_json.
    destruct (load_records payload) as [items|exc]; [|done].
    destruct (load_region payload) as [r|exc]; [|done].
    destruct (load_similarity payload) as [v|exc]; [done|].
    simpl. by rewrite actions_apply_region; destruct r as [[|a [|b [|c [|d [|]]]]]|].
  - by destruct (traverse (load_csv_row json_loads) rows).
Qed.

Lemma selection_valid_add self : selection_valid self → selection_valid (add_action self).
Proof.
  unfold selection_valid.
  destruct (add_action_outcome self) as [[-> ->]|(a & -> & ->)]; [done|].
  intros _. rewrite length_app. simpl. lia.
Qed.

Lemma selection_valid_delete self :
  selection_valid self → selection_valid (delete_action self).
Proof.
  unfold selection_valid. intros Hvalid.
  destruct (selected_action_index self) as [i|] eqn:Hsel.
  - destruct (lookup_lt_is_Some_2 _ _ Hvalid) as [removed Hi].
    rewrite (delete_action_at self i removed Hsel Hi). simpl.
    destruct (delete i (actions self)) as [|b l]; [done|]. simpl. lia.
  - unfold delete_action. rewrite Hsel.
    destruct (actions self); simpl; rewrite ?Hsel; done.
Qed.

Lemma selection_valid_select pos tv self :
  selection_valid self → selection_valid (table_select pos tv self).
Proof.
  unfold selection_valid, table_select. intros Hvalid.
  destruct (collidepoint ACTION_TABLE_RECT pos); [|done].
  destruct (_ <? 0); [done|]. destruct (_ <=? 0); [done|].
  destruct (_ && _) eqn:Hrange; [|done]. simpl.
  apply andb_true_iff in Hrange as [Hge%Z.leb_le Hlt%Z.ltb_lt].
  unfold ACTION_TABLE_RECT in *. cbn [rect_y] in *. lia.
Qed.

(** A press of the left button either selects a row or, on the scrollbar,
    leaves the list and the selection alone. *)
Lemma table_click_cases pos tv self :
  match table_click pos tv self with
  | Ok (_, self') =>
      (is_Some (rect_hit (action_scrollbar_thumb_rect tv) pos)
       ∨ is_Some (rect_hit (action_scrollbar_track_rect tv) pos) → self' = self)
      ∧ (self' = self ∨ self' = table_select pos tv self)
  | Raise _ => True
  end.
Proof.
  unfold table_click.
  destruct (rect_hit (action_scrollbar_thumb_rect tv) pos) as [thumb|] eqn:Ethumb;
    [by auto|].
  destruct (rect_hit (action_scrollbar_track_rect tv) pos) as [track|] eqn:Etrack.
  - destruct (rect_present (action_scrollbar_thumb_rect tv)) as [thumb|]; [|by auto].
    destruct (set_scroll_offset_from_thumb_position _ tv self) as [tv'|exc]; simpl;
      by auto.
  - split; [|by right]. by intros [[? [=]]|[? [=]]].
Qed.

Lemma selection_valid_click pos tv self :
  selection_valid self →
  selection_valid
    match table_click pos tv self with
    | Ok (_, self') => self'
    | Raise _ => self
    end.
Proof.
  intros Hvalid. pose proof (table_click_cases pos tv self) as Hcases.
  destruct (table_click pos tv self) as [[tv' self']|exc]; [|done].
  destruct Hcases as [_ [->| ->]]; [done|by apply selection_valid_select].
Qed.

(** Property X3. The selection never points outside the list: filling in
    the form, adding, deleting, loading a file and clicking in the table
    keep it empty or the index of an action. *)
Theorem selection_stays_valid (edits : list edit) (self : App) :
  selection_valid self → selection_valid (run_edits json_loads edits self).
Proof.
  unfold run_edits. revert self.
  induction edits as [|e edits IH]; intros self Hvalid; [done|].
  simpl. apply IH. destruct e; simpl.
  - exact Hvalid.
  - by apply selection_valid_add.
  - by apply selection_valid_delete.
  - by apply selection_valid_load.
  - by apply selection_valid_click.
Qed.

End EditFacts.

(** Two actions added, the first row clicked, the selected action deleted. *)
Lemma selection_stays_valid_witness :
  selection_valid
    (run_edits sample_json_loads
       [FillForm (mkActionForm "Wait" "" "" "" "500"); AddAction;
        FillForm (mkActionForm "Left Click" "" "" "" ""); AddAction;
        ClickTable (100, 490) (mkTableView 0 None None false 0); DeleteAction]
       initial_app).
Proof.
  apply (selection_stays_valid sample_json_loads _ initial_app). exact I.
Defined.

(** Property X4. [scroll_actions] leaves the scroll offset between 0 and
    the number of actions that do not fit in the table; it is 0 when all
    of them fit; from an offset in that range it moves by at most
    [delta]. *)
Theorem scroll_actions_in_range (delta offset : Z) (self : App) :
  let n := Z.of_nat (length (actions self)) in
  let r := scroll_actions delta offset self in
  0 ≤ r ≤ Z.max 0 (n - ACTION_TABLE_MAX_VISIBLE)
  ∧ (n ≤ ACTION_TABLE_MAX_VISIBLE → r = 0)
  ∧ (0 ≤ offset ≤ Z.max 0 (n - ACTION_TABLE_MAX_VISIBLE) →
     Z.abs (r - offset) ≤ Z.abs delta).
Proof.
  intros n r. subst r. unfold scroll_actions. fold n.
  unfold ACTION_TABLE_MAX_VISIBLE.
  destruct (n <=? 11) eqn:E; [apply Z.leb_le in E|apply Z.leb_gt in E]; lia.
Qed.

Lemma rect_hit_outside (r : option Rect) (pos : Z * Z) :
  (∀ r', r = Some r' → rect_x r' = 783 ∧ rect_width r' = 10) →
  ¬ (783 ≤ fst pos < 793) →
  rect_hit r pos = None.
Proof.
  intros Hcolumn Hout. unfold rect_hit, rect_present.
  destruct r as [r'|]; [|done].
  destruct (_ || _); [done|].
  destruct (Hcolumn r' eq_refl) as [Hx Hw].
  unfold collidepoint. rewrite Hx, Hw.
  destruct (Z.leb_spec 783 (fst pos)); [|done].
  destruct (Z.ltb_spec (fst pos) (783 + 10)); [lia|done].
Qed.

Lemma table_select_row (x dy k : Z) (tv : TableView) (self : App) :
  30 ≤ x < 805 → 0 ≤ dy < 32 → 1 ≤ k → 32 * k + dy < 380 →
  0 ≤ action_scroll_offset tv →
  table_select (x, 450 + 32 * k + dy) tv self
  = set_selected_action_index
      (if action_scroll_offset tv + k - 1 <? Z.of_nat (length (actions self))
       then Some (Z.to_nat (action_scroll_offset tv + k - 1)) else None) self
  ∧ table_select (x, 450 + dy) tv self = set_selected_action_index None self.
Proof.
  intros Hx Hdy Hk Hbottom Hoff. unfold table_select, collidepoint, ACTION_TABLE_RECT.
  cbn [fst snd rect_x rect_y rect_width rect_height].
  assert (Hrow : (450 + 32 * k + dy - (410 + 40)) / 32 = k).
  { symmetry. apply (Z.div_unique _ 32 k dy); lia. }
  assert (Hrow0 : (450 + dy - (410 + 40)) / 32 = 0) by (apply Z.div_small; lia).
  rewrite Hrow, Hrow0.
  repeat match goal with
         | |- context [?a <=? ?b] =>
             destruct (Z.leb_spec a b); try lia
         | |- context [?a <? ?b] =>
             destruct (Z.ltb_spec a b); try lia
         end; simpl; done.
Qed.

(** Property X5. With the scrollbar where [draw_action_table] puts it, a
    press of the left button in the table and outside the column of the
    scrollbar, [k] rows of 32 pixels below the band under the header,
    selects the action at [offset + k - 1] when there is one and clears the
    selection when there is none; a press in the band right under the
    header clears the selection; neither changes anything else. The table
    rectangle ends 380 pixels below the header, so the last 4 pixels of
    the eleventh row are outside. A press on the thumb or on the track of
    the scrollbar returns before the table is looked at: it changes neither
    the list nor the selection. *)
Theorem table_click_selects_row (x dy k : Z) (tv : TableView) (self : App) :
  scrollbar_as_drawn tv →
  30 ≤ x < 805 → ¬ (783 ≤ x < 793) →
  0 ≤ dy < 32 → 1 ≤ k → 32 * k + dy < 380 → 0 ≤ action_scroll_offset tv →
  table_click (x, 450 + 32 * k + dy) tv self
  = Ok (tv,
        set_selected_action_index
          (if action_scroll_offset tv + k - 1 <? Z.of_nat (length (actions self))
           then Some (Z.to_nat (action_scroll_offset tv + k - 1)) else None) self)
  ∧ table_click (x, 450 + dy) tv self = Ok (tv, set_selected_action_index None self)
  ∧ (∀ pos,
       is_Some (rect_hit (action_scrollbar_thumb_rect tv) pos)
       ∨ is_Some (rect_hit (action_scrollbar_track_rect tv) pos) →
       match table_click pos tv self with
       | Ok (_, self') => self' = self
       | Raise _ => True
       end).
Proof.
  intros Hdrawn Hx Hcolumn Hdy Hk Hbottom Hoff.
  destruct (table_select_row x dy k tv self Hx Hdy Hk Hbottom Hoff) as [Hrow Hrow0].
  assert (Hoff_bar : ∀ y,
    table_click (x, y) tv self = Ok (tv, table_select (x, y) tv self)).
  { intros y. unfold table_click.
    rewrite !rect_hit_outside; [done| |done| |done].
    - intros r Hr. apply Hdrawn. by right.
    - intros r Hr. apply Hdrawn. by left. }
  split; [by rewrite Hoff_bar, Hrow|]. split; [by rewrite Hoff_bar, Hrow0|].
  intros pos Hhit. pose proof (table_click_cases pos tv self) as Hcases.
  destruct (table_click pos tv self) as [[tv' self']|exc]; [|done].
  by apply Hcases.
Qed.

(** A click on the first row of a list of one action, which has no
    scrollbar. *)
Lemma table_click_selects_row_witness :
  table_click (100, 450 + 32 * 1 + 8) (mkTableView 0 None None false 0)
    (add_action (with_form "Wait" "" "" "" "500"))
  = Ok (mkTableView 0 None None false 0,
        set_selected_action_index (Some 0%nat)
          (add_action (with_form "Wait" "" "" "" "500"))).
Proof.
  refine (proj1 (table_click_selects_row 100 8 1 (mkTableView 0 None None false 0)
                   (add_action (with_form "Wait" "" "" "" "500"))
                   _ ltac:(lia) ltac:(lia) ltac:(lia) ltac:(lia) ltac:(lia)
                   ltac:(simpl; lia))).
  intros r [H|H]; discriminate H.
Defined.

(** ** The search region *)


Section RegionFacts.

Variable pynput_mouse : bool.

Lemma region_selection_worker_flag outcome self :
  region_setting_in_progress (region_selection_worker outcome self) = false.
Proof.
  destruct outcome as [exc|[[x1 y1]|] [[x2 y2]|]]; try done.
  simpl. by destruct (_ || _).
Qed.

Lemma apply_region_event_one_listener e rw :
  one_listener rw → one_listener (apply_region_event pynput_mouse e rw).
Proof.
  unfold one_listener. destruct e as [| |outcome]; simpl.
  - unfold start_region_selection. destruct pynput_mouse; simpl; [|done].
    destruct (region_setting_in_progress (region_app rw)) eqn:E; [by rewrite E|].
    simpl. by intros ->.
  - done.
  - destruct (listeners rw) as [|n] eqn:En; [by rewrite En|].
    simpl. rewrite region_selection_worker_flag.
    destruct (region_setting_in_progress (region_app rw)); intros [=]. done.
Qed.

(** Property X7. At most one region selection runs at a time: the flag
    [region_setting_in_progress] is set exactly while one thread is in the
    pointer listener, whatever the order in which selections are asked
    for, the full screen is chosen and listeners end. *)
Theorem one_region_listener (trace : list region_event) (rw : RegionWorld) :
  one_listener rw →
  one_listener (run_region pynput_mouse trace rw)
  ∧ (listeners (run_region pynput_mouse trace rw) ≤ 1)%nat.
Proof.
  intros Hone.
  assert (H : one_listener (run_region pynput_mouse trace rw)).
  { unfold run_region. revert rw Hone.
    induction trace as [|e trace IH]; intros rw Hone; [done|].
    simpl. apply IH. by apply apply_region_event_one_listener. }
  split; [exact H|]. unfold one_listener in H. rewrite H.
  destruct (region_setting_in_progress _); lia.
Qed.

End RegionFacts.

(** The button clicked three times in a row. *)
Lemma one_region_listener_witness :
  (listeners (run_region true [AskSelection; AskSelection; AskSelection]
                (mkRegionWorld initial_app 0)) ≤ 1)%nat.
Proof.
  exact (proj2 (one_region_listener true [AskSelection; AskSelection; AskSelection]
                  (mkRegionWorld initial_app 0) eq_refl)).
Defined.

(** ** The widgets *)

Lemma list_ascii_of_string_append (a b : string) :
  list_ascii_of_string (a +:+ b) = list_ascii_of_string a ++ list_ascii_of_string b.
Proof. induction a as [|c a IH]; simpl; [done|]. by rewrite IH. Qed.

Lemma forallb_removelast {A} (p : A → bool) (l : list A) :
  forallb p l = true → forallb p (removelast l) = true.
Proof.
  induction l as [|a l IH]; [done|]. simpl.
  intros [Ha Hl]%andb_true_iff. destruct l as [|b l]; [done|].
  simpl in *. rewrite Ha. simpl. by apply IH.
Qed.

Section TextInputFacts.

Variable digit_char : ascii → bool.

Lemma numeric_text_append neg s u :
  numeric_text digit_char neg s = true →
  Ui.isdigit digit_char u = true →
  numeric_text digit_char neg (s +:+ u) = true.
Proof.
  unfold numeric_text, Ui.isdigit.
  intros Hs [_ Hu]%andb_true_iff.
  rewrite list_ascii_of_string_append.
  apply orb_true_iff in Hs as [Hs|Hs].
  - by rewrite forallb_app, Hs, Hu.
  - apply andb_true_iff in Hs as [-> Hs].
    destruct (list_ascii_of_string s) as [|c rest]; [done|].
    apply andb_true_iff in Hs as [Hc Hs].
    simpl. rewrite Hc, !forallb_app, Hs, Hu. simpl. apply orb_true_r.
Qed.

Lemma numeric_text_drop_last neg s :
  numeric_text digit_char neg s = true →
  numeric_text digit_char neg (Ui.drop_last s) = true.
Proof.
  unfold numeric_text, Ui.drop_last.
  rewrite list_ascii_of_string_of_list_ascii.
  intros [Hs|Hs]%orb_true_iff.
  - by rewrite forallb_removelast.
  - apply andb_true_iff in Hs as [-> Hs].
    destruct (list_ascii_of_string s) as [|c rest]; [done|].
    apply andb_true_iff in Hs as [Hc Hs].
    destruct rest as [|c' rest]; [done|].
    change (removelast (c :: c' :: rest)) with (c :: removelast (c' :: rest)).
    cbv beta iota. rewrite Hc, (forallb_removelast _ _ Hs). simpl. apply orb_true_r.
Qed.

Lemma text_input_handle_event_numeric ev self :
  Ui.numeric self = true →
  numeric_text digit_char (Ui.allow_negative self) (Ui.text self) = true →
  let self' := Ui.text_input_handle_event digit_char ev self in
  Ui.numeric self' = true
  ∧ Ui.allow_negative self' = Ui.allow_negative self
  ∧ numeric_text digit_char (Ui.allow_negative self') (Ui.text self') = true.
Proof.
  intros Hnum Htext. unfold Ui.text_input_handle_event.
  destruct (Ui.disabled self); [done|].
  destruct ev as [button pos|k unicode|]; [done| |done].
  destruct (Ui.active self); [|done].
  destruct k; try done.
  - simpl. by auto using numeric_text_drop_last.
  - rewrite Hnum.
    destruct (Ui.isdigit digit_char unicode) eqn:Hdigit.
    { simpl. by auto using numeric_text_append. }
    destruct (_ && _) eqn:Hminus; [|done].
    simpl. repeat split; [done|].
    apply andb_true_iff in Hminus as [Hminus Hlen].
    apply andb_true_iff in Hminus as [Hminus _].
    apply andb_true_iff in Hminus as [_ ->].
    destruct (Ui.text self) as [|c s]; [|done].
    simpl. apply orb_true_r.
Qed.

(** Property X8. Whatever events a numeric input receives, its text stays
    a run of digits, after one leading minus sign at most and only when
    the input allows negative numbers. *)
Theorem numeric_input_stays_numeric (events : list Ui.event) (self : Ui.TextInput) :
  Ui.numeric self = true →
  numeric_text digit_char (Ui.allow_negative self) (Ui.text self) = true →
  let self' := foldl (λ self ev, Ui.text_input_handle_event digit_char ev self)
                     self events in
  numeric_text digit_char (Ui.allow_negative self) (Ui.text self') = true.
Proof.
  intros Hnum Htext self'. subst self'.
  cut (Ui.numeric (foldl (λ self ev, Ui.text_input_handle_event digit_char ev self)
                     self events) = true
       ∧ Ui.allow_negative (foldl (λ self ev, Ui.text_input_handle_event digit_char ev self)
                     self events) = Ui.allow_negative self
       ∧ numeric_text digit_char (Ui.allow_negative self)
           (Ui.text (foldl (λ self ev, Ui.text_input_handle_event digit_char ev self)
                     self events)) = true); [tauto|].
  revert self Hnum Htext.
  induction events as [|ev events IH]; intros self Hnum Htext; [done|].
  simpl.
  destruct (text_input_handle_event_numeric ev self Hnum Htext) as (Hn & Ha & Ht).
  destruct (IH _ Hn Ht) as (Hn' & Ha' & Ht').
  rewrite Ha in Ha', Ht'. done.
Qed.

End TextInputFacts.

(** The keys [-], [4], [x], [2], backspace and a second [-] typed into an
    input for coordinates. *)
Lemma numeric_input_stays_numeric_witness :
  numeric_text is_digit true
    (Ui.text
       (foldl (λ self ev, Ui.text_input_handle_event is_digit ev self)
          (Ui.mkTextInput (mkRect 0 0 120 36) "" "X" true true true false None)
          [Ui.KEYDOWN Ui.K_OTHER "-"; Ui.KEYDOWN Ui.K_OTHER "4";
           Ui.KEYDOWN Ui.K_OTHER "x"; Ui.KEYDOWN Ui.K_OTHER "2";
           Ui.KEYDOWN Ui.K_BACKSPACE ""; Ui.KEYDOWN Ui.K_OTHER "-"]))
  = true.
Proof.
  exact (numeric_input_stays_numeric is_digit
           [Ui.KEYDOWN Ui.K_OTHER "-"; Ui.KEYDOWN Ui.K_OTHER "4";
            Ui.KEYDOWN Ui.K_OTHER "x"; Ui.KEYDOWN Ui.K_OTHER "2";
            Ui.KEYDOWN Ui.K_BACKSPACE ""; Ui.KEYDOWN Ui.K_OTHER "-"]
           (Ui.mkTextInput (mkRect 0 0 120 36) "" "X" true true true false None)
           eq_refl eq_refl).
Defined.

(** ** Dropdown *)

Lemma index_of_Some value l i :
  Ui.index_of value l = Some i →
  l !! i = Some value ∧ ∀ j, (j < i)%nat → l !! j ≠ Some value.
Proof.
  revert i. induction l as [|x l IH]; intros i; [done|]. simpl.
  destruct (String.eqb_spec x value) as [->|Hne].
  - intros [= <-]. split; [done|]. intros j Hj. lia.
  - destruct (Ui.index_of value l) as [i'|]; [|done].
    intros [= <-]. destruct (IH i' eq_refl) as [Hi Hfirst].
    split; [done|]. intros [|j] Hj; simpl; [congruence|]. apply Hfirst. lia.
Qed.

Lemma index_of_None value l :
  Ui.index_of value l = None ↔ value ∉ l.
Proof.
  induction l as [|x l IH]; simpl.
  - split; [intros _; apply not_elem_of_nil|done].
  - destruct (String.eqb_spec x value) as [->|Hne].
    + split; [done|]. intros H. destruct H. apply list_elem_of_here.
    + rewrite not_elem_of_cons, <- IH.
      destruct (Ui.index_of value l); simpl; split; try done; try tauto.
      all: try (intros _; split; [congruence|done]).
      by intros [_ ?].
Qed.

(** Property X10. [set_selected_by_value] with a value among the options
    selects its first occurrence, so that [get_selected] returns the
    value, and calls [on_change] with it exactly when asked to and the
    index changed; with a value that is not an option it changes nothing
    and calls nothing. The options and the expansion are left alone. *)
Theorem set_selected_by_value_selects (value : string) (invoke_callback : bool)
    (self : Ui.Dropdown) :
  let '(self', called) := Ui.set_selected_by_value value invoke_callback self in
  Ui.options self' = Ui.options self
  ∧ Ui.expanded self' = Ui.expanded self
  ∧ (value ∈ Ui.options self →
       Ui.get_selected self' = Some value
       ∧ Ui.options self !! Ui.selected_index self' = Some value
       ∧ (∀ j, (j < Ui.selected_index self')%nat → Ui.options self !! j ≠ Some value)
       ∧ called = (if invoke_callback
                      && negb (Nat.eqb (Ui.selected_index self') (Ui.selected_index self))
                   then Some (Some value) else None))
  ∧ (value ∉ Ui.options self → self' = self ∧ called = None).
Proof.
  unfold Ui.set_selected_by_value.
  destruct (Ui.index_of value (Ui.options self)) as [i|] eqn:Hi.
  - destruct (index_of_Some _ _ _ Hi) as [Hat Hfirst].
    assert (Hget : Ui.get_selected (Ui.with_selected i self) = Some value).
    { unfold Ui.get_selected. simpl. by destruct (Ui.options self). }
    assert (Hin : value ∈ Ui.options self) by by eapply list_elem_of_lookup_2.
    destruct (invoke_callback && _) eqn:Hcall; simpl;
      (split; [done|]; split; [done|]; split; [|done]); intros _;
      rewrite ?Hget; simpl in Hcall; rewrite ?Hcall; done.
  - apply index_of_None in Hi. split; [done|]. split; [done|]. split; [done|]. done.
Qed.

Lemma find_seq_lt (p : nat → bool) (start len i : nat) :
  List.find p (seq start len) = Some i → (start ≤ i < start + len)%nat ∧ p i = true.
Proof.
  revert start. induction len as [|len IH]; intros start; [done|]. simpl.
  destruct (p start) eqn:Hp.
  - intros [= <-]. split; [lia|done].
  - intros H. destruct (IH _ H). split; [lia|done].
Qed.

Lemma find_seq_first (p : nat → bool) (start len k : nat) :
  (start ≤ k < start + len)%nat → p k = true →
  (∀ j, (start ≤ j < k)%nat → p j = false) →
  List.find p (seq start len) = Some k.
Proof.
  revert start. induction len as [|len IH]; intros start Hk Hp Hbefore; [lia|].
  simpl. destruct (decide (start = k)) as [->|Hne]; [by rewrite Hp|].
  rewrite Hbefore by lia. apply IH; [lia|done|]. intros j Hj. apply Hbefore. lia.
Qed.

Lemma option_at_lt self pos i :
  Ui.option_at self pos = Some i → (i < length (Ui.options self))%nat.
Proof. unfold Ui.option_at. intros H%find_seq_lt. lia. Qed.

Lemma get_selected_with_selected (self : Ui.Dropdown) (k : nat) (value : string) :
  Ui.options self !! k = Some value →
  Ui.get_selected (Ui.with_selected k self) = Some value.
Proof.
  intros Hk. unfold Ui.get_selected. simpl.
  destruct (Ui.options self); [done|exact Hk].
Qed.

(** Selecting a value again keeps the options and an index inside them. *)
Lemma reselect_keeps (value chosen : string) (d : Ui.Dropdown) :
  index_ok d →
  index_ok (Ui.reselect value chosen d)
  ∧ Ui.options (Ui.reselect value chosen d) = Ui.options d.
Proof.
  intros Hok. unfold Ui.reselect, Ui.set_selected_by_value.
  destruct (Ui.index_of value (Ui.options d)) as [i|] eqn:Hi; simpl; [|done].
  split; [|done]. right. simpl.
  apply index_of_Some in Hi as [Hi _]. by apply lookup_lt_Some in Hi.
Qed.

(** Property X11. Whatever callback a dropdown has, provided the callback
    keeps the options and leaves the selected index inside them: an event
    never raises the [IndexError] of [get_selected], never moves the
    selected index outside the options and never changes the options. An
    event reported as not handled changed nothing and called nothing.
    When [on_change] is called, its argument is the option that was
    clicked, one of the options; the widget is then what the callback made
    of the new selection, with the list collapsed. *)
Theorem dropdown_index_stays_inside
    (on_change : option (string → Ui.Dropdown → Ui.Dropdown))
    (ev : Ui.event) (self : Ui.Dropdown) :
  index_ok self →
  (∀ callback value d, on_change = Some callback → index_ok d →
     index_ok (callback value d) ∧ Ui.options (callback value d) = Ui.options d) →
  ∃ self' handled called,
    Ui.dropdown_handle_event on_change ev self = Some (self', handled, called)
    ∧ index_ok self'
    ∧ Ui.options self' = Ui.options self
    ∧ (handled = false → self' = self ∧ called = None)
    ∧ (∀ value, called = Some value →
         value ∈ Ui.options self ∧ Ui.expanded self' = false
         ∧ ∃ callback clicked,
             on_change = Some callback
             ∧ Ui.options self !! clicked = Some value
             ∧ self' = Ui.with_expanded false
                         (callback value (Ui.with_selected clicked self))).
Proof.
  intros Hok Hcallback. unfold Ui.dropdown_handle_event.
  destruct (Ui.dd_disabled self); [by eexists _, _, _|].
  destruct ev as [button pos|k unicode|]; [|by eexists _, _, _..].
  destruct (button =? 1).
  2:{ destruct (Ui.expanded self); by eexists _, _, _. }
  destruct (collidepoint _ _); [by eexists _, _, _|].
  destruct (Ui.expanded self); [|by eexists _, _, _].
  destruct (Ui.option_at self pos) as [clicked|] eqn:Hat; [|by eexists _, _, _].
  apply option_at_lt in Hat.
  destruct (lookup_lt_is_Some_2 _ _ Hat) as [value Hvalue].
  assert (Hclicked : index_ok (Ui.with_selected clicked self)) by by right.
  destruct on_change as [callback|].
  - rewrite (get_selected_with_selected self clicked value Hvalue).
    destruct (Hcallback callback value (Ui.with_selected clicked self) eq_refl Hclicked)
      as [Hok' Hoptions].
    eexists _, _, _. split; [done|]. split; [exact Hok'|].
    split; [exact Hoptions|]. split; [done|].
    intros ? [= <-]. split; [by eapply list_elem_of_lookup_2|]. split; [done|].
    by exists callback, clicked.
  - eexists _, _, _. split; [done|]. split; [exact Hclicked|]. done.
Qed.

(** A click on the third option of an expanded list of three, with a
    callback that selects the first option again. *)
Lemma dropdown_index_stays_inside_witness :
  ∃ self' handled called,
    Ui.dropdown_handle_event (Some (Ui.reselect "a")) (Ui.MOUSEBUTTONDOWN 1 (5, 65))
      (Ui.mkDropdown (mkRect 0 0 100 20) ["a"; "b"; "c"] 0 true false)
    = Some (self', handled, called)
    ∧ index_ok self'.
Proof.
  destruct (dropdown_index_stays_inside (Some (Ui.reselect "a"))
              (Ui.MOUSEBUTTONDOWN 1 (5, 65))
              (Ui.mkDropdown (mkRect 0 0 100 20) ["a"; "b"; "c"] 0 true false)
              (or_intror (Nat.lt_0_succ 2)))
    as (self' & handled & called & Hrun & Hok & _).
  - intros callback value d [= <-] Hd. by apply reselect_keeps.
  - by exists self', handled, called.
Defined.

(** Property X12. A left click inside the rectangle drawn for option [k] of
    an enabled, expanded dropdown selects that option, calls [on_change]
    with it when the dropdown has a callback, then collapses the list, and
    is reported as handled: the widget is what the callback made of the
    new selection, collapsed. *)
Theorem dropdown_click_selects_option
    (on_change : option (string → Ui.Dropdown → Ui.Dropdown))
    (x dy : Z) (k : nat) (value : string) (self : Ui.Dropdown) :
  Ui.dd_disabled self = false → Ui.expanded self = true →
  Ui.options self !! k = Some value →
  rect_x (Ui.dd_rect self) ≤ x < rect_x (Ui.dd_rect self) + rect_width (Ui.dd_rect self) →
  0 ≤ dy < rect_height (Ui.dd_rect self) →
  Ui.dropdown_handle_event on_change
    (Ui.MOUSEBUTTONDOWN 1
       (x, rect_y (Ui.dd_rect self) + (Z.of_nat k + 1) * rect_height (Ui.dd_rect self) + dy))
    self
  = Some match on_change with
         | Some callback =>
             (Ui.with_expanded false (callback value (Ui.with_selected k self)),
              true, Some value)
         | None => (Ui.with_expanded false (Ui.with_selected k self), true, None)
         end.
Proof.
  intros Hen Hex Hk Hx Hdy. unfold Ui.dropdown_handle_event.
  rewrite Hen, Hex. simpl (1 =? 1).
  apply lookup_lt_Some in Hk as Hlt.
  pose proof (Nat2Z.is_nonneg k) as Hk0.
  assert (Hhead :
    collidepoint (Ui.dd_rect self)
      (x, rect_y (Ui.dd_rect self) + (Z.of_nat k + 1) * rect_height (Ui.dd_rect self) + dy)
    = false).
  { unfold collidepoint. cbn [fst snd].
    apply andb_false_iff. right. apply Z.ltb_ge. nia. }
  rewrite Hhead. cbv iota.
  assert (Hat :
    Ui.option_at self
      (x, rect_y (Ui.dd_rect self) + (Z.of_nat k + 1) * rect_height (Ui.dd_rect self) + dy)
    = Some k).
  { unfold Ui.option_at. apply find_seq_first.
    - lia.
    - unfold collidepoint, Ui.option_rect.
      cbn [fst snd rect_x rect_y rect_width rect_height].
      repeat (apply andb_true_iff; split);
        try apply Z.leb_le; try apply Z.ltb_lt; nia.
    - intros j Hj.
      unfold collidepoint, Ui.option_rect.
      cbn [fst snd rect_x rect_y rect_width rect_height].
      apply andb_false_iff. right. apply Z.ltb_ge. nia. }
  rewrite Hat. destruct on_change as [callback|]; [|done].
  by rewrite (get_selected_with_selected self k value Hk).
Qed.

(** The scope dropdown when the global hotkeys cannot be registered: a
    click on [Global] calls [on_change] with it, the callback selects
    [Focused (in app)] again, and the click ends with the first option
    selected. *)
Lemma dropdown_click_selects_option_witness :
  Ui.dropdown_handle_event (Some (Ui.reselect "Focused (in app)"))
    (Ui.MOUSEBUTTONDOWN 1 (5, 0 + (Z.of_nat 1 + 1) * 36 + 5))
    (Ui.mkDropdown (mkRect 0 0 190 36) ["Focused (in app)"; "Global"] 0 true false)
  = Some (Ui.mkDropdown (mkRect 0 0 190 36) ["Focused (in app)"; "Global"] 0 false false,
          true, Some "Global").
Proof.
  exact (dropdown_click_selects_option (Some (Ui.reselect "Focused (in app)"))
           5 5 1 "Global"
           (Ui.mkDropdown (mkRect 0 0 190 36) ["Focused (in app)"; "Global"] 0 true false)
           eq_refl eq_refl eq_refl ltac:(simpl; lia) ltac:(simpl; lia)).
Defined.

(** ** Numerals *)

Lemma is_digit_not_c_space c : is_digit c = true → is_c_space c = false.
Proof.
  unfold is_digit, is_c_space. generalize (nat_of_ascii c). intros n H.
  apply andb_true_iff in H as [H1%Nat.leb_le H2%Nat.leb_le].
  apply orb_false_iff. split.
  - apply andb_false_iff. right. apply Nat.leb_gt. lia.
  - apply Nat.eqb_neq. lia.
Qed.

Lemma is_digit_not_sign c :
  is_digit c = true → Ascii.eqb c "-"%char = false ∧ Ascii.eqb c "+"%char = false.
Proof.
  intros H. split.
  - destruct (Ascii.eqb_spec c "-"%char) as [->|]; [discriminate|done].
  - destruct (Ascii.eqb_spec c "+"%char) as [->|]; [discriminate|done].
Qed.

Lemma digit_value_nonneg c : is_digit c = true → 0 ≤ digit_value c.
Proof.
  unfold is_digit, digit_value. intros H.
  apply andb_true_iff in H as [H1%Nat.leb_le _]. lia.
Qed.

Lemma digits_value_digits acc b l :
  forallb is_digit l = true → l ≠ [] ∨ b = true → 0 ≤ acc →
  ∃ z, digits_value acc b l = Some z ∧ 0 ≤ z.
Proof.
  revert acc b. induction l as [|c l IH]; intros acc b Hall Hne Hacc; simpl.
  - destruct Hne as [Hne| ->]; [done|]. by exists acc.
  - simpl in Hall. apply andb_true_iff in Hall as [Hc Hl]. rewrite Hc.
    apply IH; [done|by right|]. pose proof (digit_value_nonneg c Hc). lia.
Qed.

Lemma skip_c_space_id l :
  forallb (λ c, negb (is_c_space c)) l = true → skip_c_space l = l.
Proof.
  destruct l as [|c l]; [done|]. simpl. intros [Hc _]%andb_true_iff.
  apply negb_true_iff in Hc. by rewrite Hc.
Qed.

Lemma skip_c_space_around l :
  forallb (λ c, negb (is_c_space c)) l = true →
  rev (skip_c_space (rev (skip_c_space l))) = l.
Proof.
  intros H. rewrite (skip_c_space_id _ H), skip_c_space_id.
  - apply rev_involutive.
  - rewrite forallb_forall in *. intros c Hc. apply H. by apply in_rev.
Qed.

Lemma numeric_text_no_c_space neg s :
  numeric_text is_digit neg s = true →
  forallb (λ c, negb (is_c_space c)) (list_ascii_of_string s) = true.
Proof.
  unfold numeric_text. intros [Hnum|Hnum]%orb_true_iff.
  - rewrite forallb_forall in *. intros c Hc.
    by rewrite (is_digit_not_c_space c (Hnum c Hc)).
  - apply andb_true_iff in Hnum as [_ Hnum].
    destruct (list_ascii_of_string s) as [|c rest]; [done|].
    apply andb_true_iff in Hnum as [Hc%Ascii.eqb_eq Hrest]. subst c.
    simpl. rewrite forallb_forall in *. intros c Hc.
    by rewrite (is_digit_not_c_space c (Hrest c Hc)).
Qed.

(** [int] skips blanks and line ends around a numeral, not the separators
    [str.strip] removes. *)
Example parse_int_blanks :
  parse_int (String "009" (String "032" "42" +:+ String "010" "")) = Some 42
  ∧ strip (String "028" "5") = "5"
  ∧ parse_int (String "028" "5") = None
  ∧ parse_int "- 5" = None
  ∧ parse_int "1_000" = Some 1000.
Proof. repeat split; reflexivity. Qed.

(** Property X9. [parse_int] reads every decimal numeral of at most 4300
    digits: a text of ASCII digits, after a minus sign or not, that is
    neither empty nor the sign alone. Without the sign the number is not
    negative and [parse_positive_int] reads it too. A numeral of more
    digits than the limit of [int] is not read. *)
Theorem parse_int_reads_numerals (allow_negative : bool) (s : string) :
  numeric_text is_digit allow_negative s = true → s ≠ "" → s ≠ "-" →
  let digits := Z.of_nat (length (List.filter is_digit (list_ascii_of_string s))) in
  (digits ≤ INT_MAX_STR_DIGITS →
   ∃ z, parse_int s = Some z
     ∧ (Ui.has_minus s = false → 0 ≤ z ∧ parse_positive_int s = Some z))
  ∧ (INT_MAX_STR_DIGITS < digits → parse_int s = None).
Proof.
  intros Hnum Hne Hminus digits. subst digits.
  unfold parse_positive_int, parse_int, int_of_str, Ui.has_minus.
  rewrite (skip_c_space_around _ (numeric_text_no_c_space _ _ Hnum)).
  split.
  2:{ intros Hmany. apply Z.ltb_lt in Hmany. by rewrite Hmany. }
  intros Hfew. apply Z.ltb_ge in Hfew. rewrite Hfew.
  assert (Hl : list_ascii_of_string s ≠ []).
  { intros Hl. apply Hne. by rewrite <- (string_of_list_ascii_of_string s), Hl. }
  assert (Hl' : list_ascii_of_string s ≠ ["-"%char]).
  { intros Hl'. apply Hminus. by rewrite <- (string_of_list_ascii_of_string s), Hl'. }
  unfold numeric_text in Hnum.
  destruct (list_ascii_of_string s) as [|c rest]; [done|].
  apply orb_true_iff in Hnum as [Hnum|Hnum].
  - simpl in Hnum. apply andb_true_iff in Hnum as [Hc Hrest].
    destruct (is_digit_not_sign c Hc) as [-> ->].
    destruct (digits_value_digits 0 false (c :: rest)) as (z & Hz & Hz0);
      [by simpl; rewrite Hc, Hrest|by left|done|].
    rewrite Hz. exists z. split; [done|]. intros _. split; [done|].
    by destruct (Z.ltb_spec z 0); [lia|].
  - apply andb_true_iff in Hnum as [_ Hnum].
    apply andb_true_iff in Hnum as [Hc%Ascii.eqb_eq Hrest]. subst c.
    destruct rest as [|c' rest]; [done|].
    destruct (digits_value_digits 0 false (c' :: rest)) as (z & Hz & Hz0);
      [done|by left|done|].
    change (Ascii.eqb "-" "-") with true. cbv iota.
    rewrite Hz. exists (- z). split; [done|]. done.
Qed.

(** The numeral [-120]. *)
Lemma parse_int_reads_numerals_witness :
  ∃ z, parse_int "-120" = Some z
    ∧ (Ui.has_minus "-120" = false → 0 ≤ z ∧ parse_positive_int "-120" = Some z).
Proof.
  exact (proj1 (parse_int_reads_numerals true "-120" eq_refl ltac:(discriminate)
                  ltac:(discriminate))
           ltac:(vm_compute; discriminate)).
Defined.

(** ** The action panel *)

Lemma set_disabled_text b i : Ui.text (Ui.set_disabled b i) = Ui.text i.
Proof. by destruct b. Qed.

Lemma set_disabled_disabled b i : Ui.disabled (Ui.set_disabled b i) = b.
Proof. by destruct b. Qed.

(** Property X13. [on_action_change] enables exactly the inputs the kind
    of action reads: the text input when the catalog says the kind
    requires a text, the two coordinate inputs when it requires or accepts
    a position. An input it disables is emptied and loses the focus; an
    input it enables keeps its text. For a name that is not in the catalog
    all three are disabled and the hint is empty. *)
Theorem on_action_change_enables_what_is_read (action_name : string)
    (self : Panel.ActionPanel) :
  let definition := dict_lookup ACTION_DEFINITIONS action_name in
  let panel := Panel.on_action_change action_name self in
  let reads_text := definition_flag requires_text definition in
  let reads_position :=
    definition_flag requires_position definition
    || definition_flag optional_position definition in
  Ui.disabled (Panel.action_text_input panel) = negb reads_text
  ∧ Ui.disabled (Panel.pos_x_input panel) = negb reads_position
  ∧ Ui.disabled (Panel.pos_y_input panel) = negb reads_position
  ∧ Forall (λ '(input, before),
              if Ui.disabled input
              then Ui.text input = "" ∧ Ui.active input = false
              else Ui.text input = Ui.text before
                   ∧ Ui.active input = Ui.active before)
      [(Panel.action_text_input panel, Panel.action_text_input self);
       (Panel.pos_x_input panel, Panel.pos_x_input self);
       (Panel.pos_y_input panel, Panel.pos_y_input self)]
  ∧ (definition = None →
     reads_text = false ∧ reads_position = false ∧ Panel.action_hint panel = "").
Proof.
  intros definition panel reads_text reads_position.
  subst panel reads_text reads_position. unfold Panel.on_action_change.
  fold definition. clearbody definition.
  destruct (definition_flag requires_text definition) eqn:Htext;
    destruct (definition_flag requires_position definition
              || definition_flag optional_position definition) eqn:Hpos;
    simpl; repeat split; repeat constructor; simpl; try done.
  all: by subst definition.
Qed.

(** ** Hotkey scope, continued *)

Lemma remove_each_next_handle handles kb :
  next_handle (remove_each handles kb) = next_handle kb.
Proof.
  revert kb. induction handles as [|h handles IH]; intros kb; simpl; [done|].
  rewrite IH. unfold remove_hotkey. by destruct (holds kb h).
Qed.

Section HotkeyScopeFacts.

Variable known_key : string → bool.
Variable env : Imports.

(** Property X14. Without the [keyboard] package the provider is never
    called, neither by a change of scope nor by the capture of a key, and
    no handle is recorded. Asking for the global scope falls back to the
    scope of the application window, in the field and in the dropdown,
    with a status that asks to install the package. *)
Theorem no_provider_no_global_scope (scope key_name : string) (is_escape : bool)
    (self : App) (kb : Provider) :
  keyboard_module env = false →
  let changed := on_hotkey_scope_change known_key env scope (self, kb) in
  let captured := handle_keydown_capture known_key env key_name is_escape (self, kb) in
  snd changed = kb ∧ snd captured = kb
  ∧ global_hotkey_handles (fst changed) = global_hotkey_handles self
  ∧ hotkey_scope (fst changed) = (if is_global scope then "Focused (in app)" else scope)
  ∧ focus_dropdown (fst changed)
    = (if is_global scope then "Focused (in app)" else focus_dropdown self)
  ∧ status_message (fst changed)
    = (if is_global scope
       then [Lit "Install 'keyboard' package to enable global hotkeys."]
       else [Lit "Hotkeys limited to app window."]).
Proof.
  intros Hmissing changed captured. subst changed captured.
  unfold on_hotkey_scope_change, handle_keydown_capture, register_global_hotkeys,
    unregister_global_hotkeys.
  rewrite Hmissing. simpl.
  split; [by destruct (is_global scope)|]. split.
  - destruct (awaiting_hotkey self) as [kind|]; [|done].
    destruct (str_truthy kind); [|done]. destruct is_escape; [done|].
    by destruct (is_global _).
  - by destruct (is_global scope).
Qed.

Lemma register_global_hotkeys_bindings (self : App) (kb : Provider) :
  awaiting_hotkey (fst (register_global_hotkeys known_key env (self, kb)))
  = awaiting_hotkey self
  ∧ toggle_hotkey (fst (register_global_hotkeys known_key env (self, kb)))
    = toggle_hotkey self
  ∧ action_hotkey (fst (register_global_hotkeys known_key env (self, kb)))
    = action_hotkey self.
Proof.
  unfold register_global_hotkeys, unregister_global_hotkeys.
  destruct (keyboard_module env); simpl; [|done].
  destruct (add_hotkey _ _ _ _) as [[h1|e1] k1]; simpl; [|done].
  destruct (add_hotkey _ _ _ _) as [[h2|e2] k2]; simpl; done.
Qed.

(** Property X16. A capture binds one key. After [begin_hotkey_capture] a
    second request is ignored. The next key pressed, in lower case,
    becomes the toggle key when the capture was for [toggle] and the
    action key otherwise; the other binding is kept, the capture ends, and
    in the focused scope the provider is not called. Escape ends the
    capture with both bindings as they were. This holds with and without
    the [keyboard] package. *)
Theorem capture_rebinds_one_key (kind key_name : string) (self : App) (kb : Provider) :
  awaiting_hotkey self = None → kind ≠ "" →
  let asked := begin_hotkey_capture kind self in
  let bound := handle_keydown_capture known_key env key_name false (asked, kb) in
  let cancelled := handle_keydown_capture known_key env key_name true (asked, kb) in
  awaiting_hotkey asked = Some kind
  ∧ begin_hotkey_capture kind asked = asked
  ∧ awaiting_hotkey (fst bound) = None
  ∧ (if String.eqb kind "toggle"
     then toggle_hotkey (fst bound) = lower key_name
          ∧ action_hotkey (fst bound) = action_hotkey self
     else toggle_hotkey (fst bound) = toggle_hotkey self
          ∧ action_hotkey (fst bound) = lower key_name)
  ∧ (is_global (hotkey_scope self) = false → snd bound = kb)
  ∧ cancelled
    = (set_status [Lit "Hotkey assignment cancelled."] (set_awaiting_hotkey None asked),
       kb)
  ∧ toggle_hotkey (fst cancelled) = toggle_hotkey self
  ∧ action_hotkey (fst cancelled) = action_hotkey self.
Proof.
  intros Hidle Hkind asked bound cancelled. subst asked bound cancelled.
  assert (Htruthy : str_truthy kind = true).
  { unfold str_truthy. apply negb_true_iff. by apply String.eqb_neq. }
  destruct self as [f acts sel st reg msg sl th img scope dd tk ak aw hs rs thr ev run bt].
  simpl in Hidle. subst aw.
  unfold begin_hotkey_capture, handle_keydown_capture.
  cbn [awaiting_hotkey set_awaiting_hotkey].
  destruct (String.eqb kind "toggle") eqn:Ekind;
    cbn [awaiting_hotkey set_awaiting_hotkey set_status set_status_message
         set_toggle_hotkey set_action_hotkey hotkey_scope toggle_hotkey action_hotkey
         fst snd form actions selected_action_index status_message search_region
         region_message similarity_slider similarity_threshold target_image_cv
         focus_dropdown global_hotkey_handles region_setting_in_progress
         automation_thread stop_event automation_running buttons];
    rewrite Htruthy, ?Ekind;
    cbn [awaiting_hotkey set_awaiting_hotkey set_status set_status_message
         set_toggle_hotkey set_action_hotkey hotkey_scope toggle_hotkey action_hotkey
         fst snd form actions selected_action_index status_message search_region
         region_message similarity_slider similarity_threshold target_image_cv
         focus_dropdown global_hotkey_handles region_setting_in_progress
         automation_thread stop_event automation_running buttons].
  all: split; [done|]; split; [done|].
  all: destruct (is_global scope) eqn:Escope.
  all: try match goal with
       | |- context [register_global_hotkeys known_key env (?s, ?k)] =>
           destruct (register_global_hotkeys_bindings s k) as (H1 & H2 & H3);
           rewrite H1, H2, H3
       end.
  all: cbn [awaiting_hotkey toggle_hotkey action_hotkey fst snd].
  all: by repeat split.
Qed.

Hypothesis provider_imported : keyboard_module env = true.

(** Property X15. What [register_global_hotkeys] leaves behind when every
    registration of the provider was in the handle list. If the provider
    knows both keys, the provider holds exactly the two new registrations,
    toggle first, and the list holds their handles. If it refuses the
    toggle key, nothing is registered. If it accepts the toggle key and
    refuses the action key, the registration of the toggle key stays with
    the provider while the handle list is emptied. In both failing cases
    the scope falls back to the application window. *)
Theorem register_global_hotkeys_outcome (self : App) (kb : Provider) :
  (∀ r, r ∈ registrations kb → fst r ∈ global_hotkey_handles self) →
  let st := register_global_hotkeys known_key env (self, kb) in
  let n := next_handle kb in
  if known_key (toggle_hotkey self) then
    if known_key (action_hotkey self) then
      registrations (snd st)
        = [(n, (toggle_hotkey self, TriggerToggle));
           (S n, (action_hotkey self, TriggerAction))]
      ∧ global_hotkey_handles (fst st) = [n; S n]
      ∧ hotkey_scope (fst st) = hotkey_scope self
      ∧ status_message (fst st) = [Lit "Global hotkeys enabled."]
    else
      registrations (snd st) = [(n, (toggle_hotkey self, TriggerToggle))]
      ∧ global_hotkey_handles (fst st) = []
      ∧ hotkey_scope (fst st) = "Focused (in app)"
      ∧ status_message (fst st) = [Lit "Global hotkey error: "; ShowExc ValueError]
  else
    registrations (snd st) = []
    ∧ global_hotkey_handles (fst st) = []
    ∧ hotkey_scope (fst st) = "Focused (in app)"
    ∧ status_message (fst st) = [Lit "Global hotkey error: "; ShowExc ValueError].
Proof.
  intros Htracked st n. subst st n.
  unfold register_global_hotkeys, unregister_global_hotkeys.
  rewrite provider_imported. simpl.
  assert (Hnone : registrations (remove_each (global_hotkey_handles self) kb) = []).
  { apply elem_of_nil_inv. intros r [Hr Hnot]%remove_each_registrations.
    apply Hnot. by apply Htracked. }
  unfold add_hotkey. simpl.
  destruct (known_key (toggle_hotkey self)); simpl.
  - destruct (known_key (action_hotkey self)); simpl;
      by rewrite Hnone, remove_each_next_handle.
  - by rewrite Hnone.
Qed.

End HotkeyScopeFacts.

(** The global scope asked for with the package missing. *)
Lemma no_provider_no_global_scope_witness :
  snd (on_hotkey_scope_change sample_known_key (mkImports true true true false)
         "Global" (initial_app, no_registrations))
  = no_registrations.
Proof.
  exact (proj1 (no_provider_no_global_scope sample_known_key
                  (mkImports true true true false) "Global" "f9" false
                  initial_app no_registrations eq_refl)).
Defined.

(** The default keys with a provider that knows them. *)
Lemma register_global_hotkeys_outcome_witness :
  registrations (snd (register_global_hotkeys sample_known_key full_imports
                        (initial_app, no_registrations)))
  = [(0%nat, ("f9", TriggerToggle)); (1%nat, ("f10", TriggerAction))].
Proof.
  exact (proj1 (register_global_hotkeys_outcome sample_known_key full_imports eq_refl
                  initial_app no_registrations
                  (λ r Hr, False_ind _ (not_elem_of_nil r Hr)))).
Defined.

(** The toggle key rebound to F8. *)
Lemma capture_rebinds_one_key_witness :
  toggle_hotkey
    (fst (handle_keydown_capture sample_known_key full_imports "F8" false
            (begin_hotkey_capture "toggle" initial_app, no_registrations)))
  = "f8".
Proof.
  pose proof (capture_rebinds_one_key sample_known_key full_imports
                "toggle" "F8" initial_app no_registrations eq_refl
                ltac:(discriminate)) as (_ & _ & _ & H & _).
  exact (proj1 H).
Defined.

(** The scope switched back right after a registration that succeeded. *)
Lemma scope_change_clears_tracked_witness :
  registrations
    (snd (on_hotkey_scope_change sample_known_key full_imports "Focused (in app)"
            (register_global_hotkeys sample_known_key full_imports
               (initial_app, no_registrations))))
  = [].
Proof.
  refine (proj1 (scope_change_clears_tracked sample_known_key full_imports eq_refl
                   "Focused (in app)"
                   (fst (register_global_hotkeys sample_known_key full_imports
                           (initial_app, no_registrations)))
                   (snd (register_global_hotkeys sample_known_key full_imports
                           (initial_app, no_registrations)))
                   eq_refl _)).
  intros r Hr. vm_compute in Hr. vm_compute.
  apply elem_of_cons in Hr as [->|Hr]; [apply list_elem_of_here|].
  apply elem_of_cons in Hr as [->|Hr];
    [apply list_elem_of_further, list_elem_of_here|].
  by apply not_elem_of_nil in Hr.
Defined.

(** ** Detection, continued *)

Lemma perform_detection_cycle_status env screenshot template self :
  snd (perform_detection_cycle env screenshot template self) = self
  ∨ ∃ msg, snd (perform_detection_cycle env screenshot template self)
           = set_status msg self.
Proof.
  unfold perform_detection_cycle, capture_screen.
  destruct (target_image_cv self) as [[h w]|]; [|by left].
  destruct (pyautogui env), (cv2 env), (np env); simpl; try by left.
  destruct screenshot as [[]|exc]; simpl; [|right; by eexists].
  destruct template as [[s loc]|exc]; [|right; by eexists].
  destruct (float_ge s (similarity_threshold self)); by left.
Qed.

(** Property X18. A detection cycle gives no verdict exactly when no
    reference image is loaded, one of the three packages is missing, the
    screenshot failed or the matching failed. It changes nothing but the
    status, and the status only to report a failed screenshot or, after a
    screenshot that succeeded, a failed matching. *)
Theorem detection_cycle_without_verdict (env : Imports) (screenshot : result unit)
    (template : result (spec_float * (Z * Z))) (self : App) :
  let '(verdict, self') := perform_detection_cycle env screenshot template self in
  (verdict = None
   ↔ target_image_cv self = None
     ∨ pyautogui env && cv2 env && np env = false
     ∨ (∃ exc, screenshot = Raise exc) ∨ (∃ exc, template = Raise exc))
  ∧ self'
    = (if bool_decide (is_Some (target_image_cv self))
          && (pyautogui env && cv2 env && np env)
       then match screenshot, template with
            | Raise exc, _ => set_status [Lit "Screenshot error: "; ShowExc exc] self
            | Ok _, Raise exc =>
                set_status [Lit "Template match failed: "; ShowExc exc] self
            | Ok _, Ok _ => self
            end
       else self).
Proof.
  unfold perform_detection_cycle, capture_screen.
  destruct (target_image_cv self) as [[h w]|]; simpl; [|split; [tauto|done]].
  destruct (pyautogui env), (cv2 env), (np env); simpl;
    try (split; [split; [tauto|done]|done]).
  destruct screenshot as [[]|exc]; simpl.
  2:{ split; [|done]. split; [|done]. intros _. right. right. left. by eexists. }
  destruct template as [[s loc]|exc]; simpl.
  2:{ split; [|done]. split; [|done]. intros _. right. right. right. by eexists. }
  destruct (float_ge s (similarity_threshold self)); (split; [|done]);
    (split; [done|]); intros [?|[?|[[? ?]|[? ?]]]]; done.
Qed.

(** ** The automation scheduler, continued *)

Section WorkerFacts.

Variable env : Imports.

Lemma perform_detection_cycle_stop_event screenshot template self :
  stop_event (snd (perform_detection_cycle env screenshot template self))
  = stop_event self.
Proof.
  destruct (perform_detection_cycle_status env screenshot template self)
    as [H|[msg H]]; by rewrite H.
Qed.

Lemma automation_loop_step_stop_event input pc self :
  stop_event (snd (automation_loop_step env input pc self)) = stop_event self.
Proof.
  destruct pc; simpl.
  - by destruct (stop_event self) eqn:E.
  - destruct input as [|screenshot template|exc|failure]; try done.
    pose proof (perform_detection_cycle_stop_event screenshot template self) as H.
    by destruct (perform_detection_cycle env screenshot template self) as [[[]|] self'].
  - by destruct input as [| |exc|[failure|]].
  - by destruct (stop_event self) eqn:E.
  - done.
  - done.
Qed.

Lemma automation_loop_step_progress input pc self :
  stop_event self = true → answers pc input = true →
  stop_event (snd (automation_loop_step env input pc self)) = true
  ∧ match pc with
    | AtLoopTest | AtBreakTest =>
        fst (automation_loop_step env input pc self) = Exited
        ∧ buttons (snd (automation_loop_step env input pc self))
          = mkRunButtons false true (region_setting_in_progress self)
        ∧ automation_running (snd (automation_loop_step env input pc self)) = false
    | InSleep => fst (automation_loop_step env input pc self) = AtLoopTest
    | InExecution _ =>
        fst (automation_loop_step env input pc self) = AtBreakTest
        ∨ (fst (automation_loop_step env input pc self) = Exited
           ∧ automation_running (snd (automation_loop_step env input pc self)) = false)
    | InDetection =>
        fst (automation_loop_step env input pc self) = InSleep
        ∨ (∃ center, fst (automation_loop_step env input pc self) = InExecution center)
        ∨ fst (automation_loop_step env input pc self) = AtBreakTest
        ∨ (fst (automation_loop_step env input pc self) = Exited
           ∧ automation_running (snd (automation_loop_step env input pc self)) = false)
    | Exited => automation_loop_step env input pc self = (Exited, self)
    end.
Proof.
  intros Hstop Hanswers.
  split; [by rewrite automation_loop_step_stop_event|].
  destruct pc; simpl in *; rewrite ?Hstop; simpl; try done.
  - destruct input as [|screenshot template|exc|failure]; try done.
    + destruct (perform_detection_cycle env screenshot template self)
        as [[[center score|score]|] self']; simpl; eauto.
    + simpl. by repeat right.
  - destruct input as [| |exc|[failure|]]; try done; simpl; auto.
Qed.

(** Property X19. Once the cancellation flag is set, a worker whose
    collaborators answer leaves [automation_loop] within three of its
    steps, wherever it was, with the running flag clear; no step of the
    worker clears the cancellation flag. *)
Theorem stop_event_ends_worker (next : worker_pc → worker_input) (pc : worker_pc)
    (self : App) :
  stop_event self = true → is_alive pc = true →
  (∀ pc, answers pc (next pc) = true) →
  fst (worker_steps env next 3 (pc, self)) = Exited
  ∧ automation_running (snd (worker_steps env next 3 (pc, self))) = false
  ∧ stop_event (snd (worker_steps env next 3 (pc, self))) = true.
Proof.
  intros Hstop Halive Hnext.
  cbn [worker_steps fst snd].
  destruct (automation_loop_step_progress (next pc) pc self Hstop (Hnext pc))
    as [Hstop1 H1].
  destruct (automation_loop_step env (next pc) pc self) as [pc1 self1].
  cbn [fst snd] in *.
  destruct (automation_loop_step_progress (next pc1) pc1 self1 Hstop1 (Hnext pc1))
    as [Hstop2 H2].
  destruct (automation_loop_step env (next pc1) pc1 self1) as [pc2 self2].
  cbn [fst snd] in *.
  destruct (automation_loop_step_progress (next pc2) pc2 self2 Hstop2 (Hnext pc2))
    as [Hstop3 H3].
  destruct (automation_loop_step env (next pc2) pc2 self2) as [pc3 self3].
  cbn [fst snd] in *.
  destruct pc; try done.
  all: repeat match goal with
         | H : _ ∧ _ |- _ => destruct H
         | H : _ ∨ _ |- _ => destruct H
         | H : ∃ _, _ |- _ => destruct H
         | H : (_, _) = (_, _) |- _ => injection H as ? ?
         | H : ?p = _ |- _ => is_var p; subst p; cbn [fst snd] in *
         end.
  all: by repeat split.
Qed.

End WorkerFacts.

(** A worker in a detection cycle that finds a match. *)
Lemma stop_event_ends_worker_witness :
  fst (worker_steps full_imports
         (λ pc, match pc with
                | InDetection => Answers (Ok tt) (Ok (float_one, (0, 0)))
                | _ => Executed None
                end) 3
         (InDetection, set_stop_event true sample_detect_app))
  = Exited.
Proof.
  refine (proj1 (stop_event_ends_worker full_imports _ InDetection
                   (set_stop_event true sample_detect_app) eq_refl eq_refl _)).
  intros pc. by destruct pc.
Defined.

(** Start and the hotkey used again while the worker runs. *)
Lemma run_single_flight_witness :
  single_flight
    (run full_imports
       [CallStart; Step 0 NoInput; CallStart; CallToggle; Step 0 NoInput; CallStart]
       sample_ready_world).
Proof.
  apply run_single_flight; [reflexivity|]. left. reflexivity.
Defined.

(** ** Persistence, continued *)

Section LoadFacts.

Variable json_loads : string → result pyval.

(** Property X21. A structured load is not atomic for the search region:
    when the records and the region of the file are read and the
    similarity cannot be converted, the load fails with the actions, the
    selection and the similarity as they were, and the search region and
    its message already replaced by those of the file. *)
Theorem load_failure_keeps_new_region (payload : pyval) (self : App)
    (loaded_actions : list ActionItem) (a b c d : Z) (exc : pyexc) :
  load_records payload = Ok loaded_actions →
  load_region payload = Ok (Some [a; b; c; d]) →
  load_similarity payload = Raise exc →
  let loaded := load_actions json_loads (JsonFile (Ok payload)) self in
  status_message loaded = [Lit "Load failed: "; ShowExc exc]
  ∧ actions loaded = actions self
  ∧ selected_action_index loaded = selected_action_index self
  ∧ similarity_slider loaded = similarity_slider self
  ∧ search_region loaded = Some (a, b, c, d)
  ∧ region_message loaded
    = [Lit "Region "; ShowInt a; Lit ", "; ShowInt b; Lit " (";
       ShowInt c; Lit "x"; ShowInt d; Lit ")"].
Proof.
  intros Hrecords Hregion Hsimilarity loaded. subst loaded.
  unfold load_actions, load_json. rewrite Hrecords, Hregion, Hsimilarity. done.
Qed.

Lemma load_csv_row_ok (row : list (string * option string)) :
  (∀ text exc, json_loads text = Raise exc → exc = JSONDecodeError) →
  dict_lookup row "params" ≠ Some None →
  ∃ a, load_csv_row json_loads row = Ok a ∧ 0 ≤ delay_ms a.
Proof.
  intros Hjson Hcell. unfold load_csv_row.
  assert (Hdelay : 0 ≤ match default (Some "0") (dict_lookup row "delay_ms") with
                       | Some text => default 0 (parse_positive_int text)
                       | None => 0
                       end).
  { destruct (default (Some "0") (dict_lookup row "delay_ms")) as [t|]; [|done].
    destruct (parse_positive_int t) as [n|] eqn:En; [|done].
    by apply parse_positive_int_nonneg in En. }
  destruct (dict_lookup row "params") as [[text|]|] eqn:Eparams; simpl; [|done|].
  - destruct (json_loads text) as [v|exc] eqn:Ejson.
    + simpl. by eexists.
    + rewrite (Hjson _ _ Ejson). simpl. by eexists.
  - destruct (json_loads "{}") as [v|exc] eqn:Ejson.
    + simpl. by eexists.
    + rewrite (Hjson _ _ Ejson). simpl. by eexists.
Qed.

(** Property X22. The flat format rejects no row. When [json.loads] fails
    with [JSONDecodeError] only and no row is cut before its parameters
    cell, the load succeeds with one action per row, in order, each with a
    delay that is not negative; the selection is cleared and the region
    and the similarity are left alone. *)
Theorem load_csv_never_rejects (rows : list (list (string * option string)))
    (self : App) :
  (∀ text exc, json_loads text = Raise exc → exc = JSONDecodeError) →
  Forall (λ row, dict_lookup row "params" ≠ Some None) rows →
  let loaded := load_actions json_loads (CsvFile (Ok rows)) self in
  length (actions loaded) = length rows
  ∧ Forall2 (λ row a, load_csv_row json_loads row = Ok a ∧ 0 ≤ delay_ms a)
      rows (actions loaded)
  ∧ selected_action_index loaded = None
  ∧ status_message loaded
    = [Lit "Loaded "; ShowInt (Z.of_nat (length rows)); Lit " actions from file."]
  ∧ search_region loaded = search_region self
  ∧ similarity_slider loaded = similarity_slider self.
Proof.
  intros Hjson Hrows loaded. subst loaded.
  assert (H : ∃ items, traverse (load_csv_row json_loads) rows = Ok items
            ∧ Forall2 (λ row a, load_csv_row json_loads row = Ok a ∧ 0 ≤ delay_ms a)
                rows items).
  { induction Hrows as [|row rows Hrow _ IH]; [by exists []|].
    destruct (load_csv_row_ok row Hjson Hrow) as (a & Ha & Hdelay).
    destruct IH as (items & Hitems & Hall).
    exists (a :: items). simpl. rewrite Ha. simpl. rewrite Hitems. simpl.
    split; [done|]. by constructor. }
  destruct H as (items & Hitems & Hall).
  unfold load_actions. rewrite Hitems. simpl.
  pose proof (Forall2_length _ _ _ Hall) as Hlen.
  rewrite <- Hlen. done.
Qed.

End LoadFacts.

(** A file with a region and the similarity [high]. *)
Lemma load_failure_keeps_new_region_witness :
  search_region
    (load_actions sample_json_loads
       (JsonFile (Ok (VDict [("region", VList [VInt 1; VInt 2; VInt 30; VInt 40]);
                             ("similarity", VStr "high")])))
       initial_app)
  = Some (1, 2, 30, 40).
Proof.
  pose proof (load_failure_keeps_new_region sample_json_loads
                (VDict [("region", VList [VInt 1; VInt 2; VInt 30; VInt 40]);
                        ("similarity", VStr "high")])
                initial_app [] 1 2 30 40 ValueError eq_refl eq_refl eq_refl)
    as (_ & _ & _ & _ & H & _).
  exact H.
Defined.

(** A row with broken parameters and a negative delay, and a short row. *)
Lemma load_csv_never_rejects_witness :
  length
    (actions
       (load_actions sample_json_loads
          (CsvFile (Ok [[("action_type", Some "Wait"); ("params", Some "{oops");
                         ("delay_ms", Some "-5")];
                        [("action_type", Some "Left Click")]]))
          initial_app))
  = 2%nat.
Proof.
  refine (proj1 (load_csv_never_rejects sample_json_loads
                   [[("action_type", Some "Wait"); ("params", Some "{oops");
                     ("delay_ms", Some "-5")];
                    [("action_type", Some "Left Click")]]
                   initial_app _ _)).
  - intros text exc. unfold sample_json_loads.
    destruct (String.eqb text "{}"); [discriminate|]. by intros [= <-].
  - repeat constructor; discriminate.
Defined.

(** A list of one [Press Key] action, saved and loaded. *)
Lemma save_load_round_trip_witness :
  actions
    (load_actions sample_json_loads
       (JsonFile (Ok (save_payload
                        (add_action (with_form "Press Key" "ctrl+c" "" "" "5")))))
       initial_app)
  = [mkActionItem (VStr "Press Key") (VDict [("text", VStr "ctrl+c")]) 5].
Proof.
  refine (proj1 (save_load_round_trip sample_json_loads
                   (add_action (with_form "Press Key" "ctrl+c" "" "" "5"))
                   initial_app _)).
  repeat constructor.
Defined.

(** ** The action executor, continued *)

Lemma injections_app (l1 l2 : list exec_event) :
  injections (l1 ++ l2) = (injections l1 + injections l2)%nat.
Proof. unfold injections. by rewrite List.filter_app, length_app. Qed.

Lemma nothing_injected_injections (evs : list exec_event) :
  nothing_injected evs = true → injections evs = 0%nat.
Proof.
  unfold nothing_injected, injections.
  induction evs as [|e evs IH]; [done|]. simpl.
  intros [He Hevs]%andb_true_iff. destruct e; try done; simpl; by apply IH.
Qed.

Lemma type_is_true (a : ActionItem) (name : string) :
  type_is a name = true → action_type a = VStr name.
Proof.
  unfold type_is. destruct (action_type a); try done.
  by intros ->%String.eqb_eq.
Qed.

Lemma truthy_dict (d : list (string * pyval)) :
  (if truthy (VDict d) then VDict d else VDict []) = VDict d.
Proof. by destruct d. Qed.

Section ExecutorRunFacts.

Variable stop_flag : Z → bool.
Variable inject : injection → result Z.

(** An action makes at most one call to the injection collaborator. *)
Lemma perform_action_injects action center ex ex' :
  perform_action inject action center ex = Ok ex' →
  ∃ new, events ex' = events ex ++ new ∧ (injections new ≤ 1)%nat.
Proof.
  assert (Hcall : ∀ c, call inject c ex = Ok ex' →
            ∃ new, events ex' = events ex ++ new ∧ (injections new ≤ 1)%nat).
  { intros c Hc. apply call_events in Hc. eexists. split; [done|].
    unfold injections. simpl. lia. }
  assert (Hskip : Ok ex = Ok ex' →
            ∃ new, events ex' = events ex ++ new ∧ (injections new ≤ 1)%nat).
  { intros [= <-]. exists []. rewrite app_nil_r. split; [done|].
    unfold injections. simpl. lia. }
  unfold perform_action, mbind, result_bind.
  repeat match goal with
         | |- context [match ?r with Ok _ => _ | Raise _ => _ end] =>
             destruct r; [|done]
         | |- context [if ?b then _ else _] => destruct b
         | |- context [match ?l with [] => _ | _ :: _ => _ end] => destruct l
         end; eauto; try done.
Qed.

Lemma execute_one_injects fuel center action ex :
  match execute_one stop_flag inject fuel center action ex with
  | Next ex' | Broke ex' _ =>
      ∃ new, events ex' = events ex ++ new
        ∧ (injections new ≤ if acts action then 1 else 0)%nat
  | OutOfFuel => True
  end.
Proof.
  unfold execute_one.
  set (ex0 := mkExec (clock ex)
                (events ex ++ [Polled (clock ex) (stop_flag (clock ex))])).
  assert (H0 : ∀ k, ∃ new, events ex0 = events ex ++ new ∧ (injections new ≤ k)%nat).
  { intros k. eexists. split; [done|]. simpl. unfold injections. simpl. lia. }
  assert (Hsleep : ∀ end_time ex1 k,
            (∃ new, events ex1 = events ex ++ new ∧ (injections new ≤ k)%nat) →
            match
              match sleep_loop stop_flag fuel end_time ex1 with
              | Some ex2 => Next ex2
              | None => OutOfFuel
              end
            with
            | Next ex' | Broke ex' _ =>
                ∃ new, events ex' = events ex ++ new ∧ (injections new ≤ k)%nat
            | OutOfFuel => True
            end).
  { intros end_time ex1 k (new & Hev & Hk).
    destruct (sleep_loop stop_flag fuel end_time ex1) as [ex2|] eqn:E; [|done].
    apply sleep_loop_events in E as (_ & new' & Hev' & _ & Hinj).
    exists (new ++ new'). split; [by rewrite Hev', Hev, <- app_assoc|].
    rewrite injections_app, (nothing_injected_injections _ Hinj). lia. }
  change (clock ex0) with (clock ex). destruct (stop_flag (clock ex)); [apply H0|].
  destruct (type_is action "Wait") eqn:Ewait.
  - assert (Hacts : acts action = false).
    { unfold acts. rewrite (type_is_true _ _ Ewait). done. }
    rewrite Hacts.
    destruct (_ ≫= _) as [[duration []]|]; try apply H0.
    destruct (deadline_after _ _); [|apply H0]. apply Hsleep, H0.
  - assert (Hacts : acts action = true).
    { unfold acts, type_is in *. destruct (action_type action); try done.
      by rewrite Ewait. }
    rewrite Hacts.
    destruct (perform_action inject action center ex0) as [ex1|] eqn:E; [|apply H0].
    apply perform_action_injects in E as (new & Hev & Hone).
    assert (H1 : ∃ new, events ex1 = events ex ++ new ∧ (injections new ≤ 1)%nat).
    { exists ([Polled (clock ex) false] ++ new).
      split; [by rewrite Hev; simpl; rewrite <- app_assoc|].
      rewrite injections_app. unfold injections at 1. simpl. lia. }
    destruct (0 <? delay_ms action); [|exact H1].
    destruct (FLOAT_OVERFLOW <=? delay_ms action); [exact H1|by apply Hsleep].
Qed.

(** Property X24. The executor calls the injection collaborator at most
    once for each step that is not a [Wait], and never for a [Wait]: the
    injections of a run are at most as many as the steps that act. *)
Theorem one_injection_per_action (fuel : nat) (center : Z * Z)
    (todo : list ActionItem) (ex : Exec) :
  match execute_loop stop_flag inject fuel center todo ex with
  | Next ex' | Broke ex' _ =>
      ∃ new, events ex' = events ex ++ new
        ∧ (injections new ≤ length (List.filter acts todo))%nat
  | OutOfFuel => True
  end.
Proof.
  revert ex. induction todo as [|action rest IH]; intros ex; simpl.
  - exists []. rewrite app_nil_r. split; [done|]. simpl. unfold injections. simpl. lia.
  - pose proof (execute_one_injects fuel center action ex) as Hone.
    destruct (execute_one stop_flag inject fuel center action ex) as [ex'|ex' f|];
      [| |done].
    + specialize (IH ex').
      destruct (execute_loop stop_flag inject fuel center rest ex') as [ex''|ex'' f|];
        [| |done];
        destruct Hone as (new & Hev & Hn), IH as (new' & Hev' & Hn');
        exists (new ++ new');
        (split; [by rewrite Hev', Hev, <- app_assoc|]);
        rewrite injections_app; destruct (acts action); simpl; lia.
    + destruct Hone as (new & Hev & Hn). exists new. split; [done|].
      destruct (acts action); simpl; lia.
Qed.

Lemma call_ok c ex :
  (∀ c, ∃ cost, inject c = Ok cost) → ∃ ex', call inject c ex = Ok ex'.
Proof.
  intros Hinject. destruct (Hinject c) as [cost Hcost].
  unfold call, mbind, result_bind. rewrite Hcost. by eexists.
Qed.

Lemma perform_action_authored action center ex :
  item_invariant action → (∀ c, ∃ cost, inject c = Ok cost) →
  ∃ ex', perform_action inject action center ex = Ok ex'.
Proof.
  intros ([d Hd] & _ & Hmove & Htext & _) Hinject.
  assert (Hskip : ∃ ex', @Ok Exec ex = Ok ex') by by eexists.
  unfold perform_action. rewrite Hd, truthy_dict. unfold py_get, mbind, result_bind.
  destruct (type_is action "Move to Match"); [by apply call_ok|].
  destruct (type_is action "Move to Position") eqn:Emove.
  { destruct (Hmove (type_is_true _ _ Emove))
      as [(dx & x & Hdx & Hx) (dy & y & Hdy & Hy)].
    rewrite Hd in Hdx, Hdy. injection Hdx as <-. injection Hdy as <-.
    rewrite Hx, Hy. simpl. by apply call_ok. }
  destruct (type_is action "Left Click");
    [destruct (_ && _); by apply call_ok|].
  destruct (type_is action "Right Click");
    [destruct (_ && _); by apply call_ok|].
  destruct (type_is action "Double Click");
    [destruct (_ && _); by apply call_ok|].
  destruct (type_is action "Type Text") eqn:Etype.
  { destruct (truthy _); [by apply call_ok|done]. }
  destruct (type_is action "Press Key") eqn:Epress; [|done].
  destruct (Htext (or_intror (type_is_true _ _ Epress)))
    as (dt & text & Hdt & Ht & Hne).
  rewrite Hd in Hdt. injection Hdt as <-. rewrite Ht. simpl.
  assert (Htruthy : negb (text =? "")%string = true).
  { apply negb_true_iff. by apply String.eqb_neq. }
  rewrite Htruthy. simpl.
  destruct (parse_hotkey_sequence text) as [|key [|key' keys]];
    [done|by apply call_ok..].
Qed.

(** Property X25. A step that satisfies the invariants of authoring runs to
    its end. With an injection collaborator that does not fail, fuel for
    its delay and its duration, and both small enough for a float, the
    step ends normally, or is skipped because the cancellation flag was
    set when it was about to start: nothing in its parameters makes it
    fail. *)
Theorem authored_step_executes (n : nat) (center : Z * Z) (action : ActionItem)
    (ex : Exec) :
  item_invariant action →
  (∀ c, ∃ cost, inject c = Ok cost) →
  delay_ms action ≤ POLL_MS * Z.of_nat n →
  (∀ d z, params action = VDict d → dict_lookup d "duration_ms" = Some (VInt z) →
          z ≤ POLL_MS * Z.of_nat n) →
  POLL_MS * Z.of_nat n < FLOAT_OVERFLOW →
  ∃ ex', execute_one stop_flag inject (S n) center action ex
         = (if stop_flag (clock ex) then Broke ex' None else Next ex').
Proof.
  intros Hinv Hinject Hdelay Hduration Hfloat. unfold execute_one.
  set (ex0 := mkExec (clock ex)
                (events ex ++ [Polled (clock ex) (stop_flag (clock ex))])).
  change (clock ex0) with (clock ex).
  destruct (stop_flag (clock ex)); [by eexists|].
  destruct (type_is action "Wait") eqn:Ewait.
  - destruct Hinv as (_ & _ & _ & _ & Hwait).
    destruct (Hwait (type_is_true _ _ Ewait)) as [(d & z & Hd & Hz & Hz0) _].
    rewrite Hd. unfold py_get, mbind, result_bind. rewrite Hz. cbn -[sleep_loop].
    destruct (0 <? z) eqn:Epos; [|by eexists].
    specialize (Hduration d z Hd Hz).
    assert (Hfits : (FLOAT_OVERFLOW <=? z) = false) by (apply Z.leb_gt; lia).
    rewrite Hfits.
    destruct (sleep_loop_returns stop_flag (clock ex + z) n ex0) as (ex' & -> & _);
      [simpl; lia|]. by eexists.
  - destruct (perform_action_authored action center ex0 Hinv Hinject) as [ex1 ->].
    destruct (0 <? delay_ms action); [|by eexists].
    assert (Hfits : (FLOAT_OVERFLOW <=? delay_ms action) = false)
      by (apply Z.leb_gt; lia).
    rewrite Hfits.
    destruct (sleep_loop_returns stop_flag (clock ex1 + delay_ms action) n ex1)
      as (ex' & -> & _); [lia|]. by eexists.
Qed.

End ExecutorRunFacts.

(** A [Wait] of 500 ms that nobody cancels. *)
Lemma authored_step_executes_witness :
  ∃ ex', execute_one (λ _, false) instant_inject 51 (220, 165)
           (mkActionItem (VStr "Wait") (VDict [("duration_ms", VInt 500)]) 0)
           fresh_exec
         = Next ex'.
Proof.
  refine (authored_step_executes (λ _, false) instant_inject 50 (220, 165)
            (mkActionItem (VStr "Wait") (VDict [("duration_ms", VInt 500)]) 0)
            fresh_exec _ _ _ _ _).
  - split; [by eexists|]. split; [done|]. split; [discriminate|].
    split; [intros [|]; discriminate|].
    intros _. split; [|done]. eexists _, 500. split; [done|]. split; [done|]. lia.
  - intros c. by exists 0.
  - simpl. unfold POLL_MS. lia.
  - intros d z [= <-] [= <-]. unfold POLL_MS. lia.
  - vm_compute. done.
Defined.

Section DelayFacts.

Variable stop_flag : Z → bool.
Variable inject : injection → result Z.

(** Property X26. A delay that nobody cancels is observed: after an action
    that is not a [Wait] and whose injection returned, the step ends not
    before its delay has elapsed and less than one polling interval
    after. *)
Theorem delay_is_observed (n : nat) (center : Z * Z) (action : ActionItem)
    (ex ex1 : Exec) :
  (∀ now, stop_flag now = false) →
  type_is action "Wait" = false →
  perform_action inject action center
    (mkExec (clock ex) (events ex ++ [Polled (clock ex) false])) = Ok ex1 →
  0 < delay_ms action ≤ POLL_MS * Z.of_nat n →
  delay_ms action < FLOAT_OVERFLOW →
  ∃ ex', execute_one stop_flag inject (S n) center action ex = Next ex'
    ∧ clock ex1 + delay_ms action ≤ clock ex' < clock ex1 + delay_ms action + POLL_MS.
Proof.
  intros Hnever Hwait Hact [Hpos Hfuel] Hfloat. unfold execute_one.
  cbn [clock]. rewrite Hnever, Hwait, Hact.
  assert (H1 : (0 <? delay_ms action) = true) by (apply Z.ltb_lt; lia).
  assert (H2 : (FLOAT_OVERFLOW <=? delay_ms action) = false) by (apply Z.leb_gt; lia).
  rewrite H1, H2.
  destruct (sleep_loop_returns stop_flag (clock ex1 + delay_ms action) n ex1)
    as (ex' & -> & Hfull); [lia|].
  exists ex'. split; [done|]. apply Hfull; [done|lia].
Qed.

End DelayFacts.

(** A left click followed by a delay of 25 ms: the step ends at 30 ms. *)
Lemma delay_is_observed_witness :
  ∃ ex', execute_one (λ _, false) instant_inject 4 (220, 165)
           (mkActionItem (VStr "Left Click") (VDict []) 25) fresh_exec
         = Next ex'
    ∧ 0 + 25 ≤ clock ex' < 0 + 25 + POLL_MS.
Proof.
  exact (delay_is_observed (λ _, false) instant_inject 3 (220, 165)
           (mkActionItem (VStr "Left Click") (VDict []) 25) fresh_exec
           (mkExec 0 [Polled 0 false; Injected (Click (VInt 220) (VInt 165) "left")])
           (λ _, eq_refl) eq_refl eq_refl
           ltac:(unfold POLL_MS; simpl; lia) ltac:(vm_compute; done)).
Defined.

(** ** Key sequences *)

Lemma lstrip_chars_head l :
  match lstrip_chars l with
  | [] => True
  | c :: _ => is_space c = false
  end.
Proof.
  induction l as [|c l IH]; [done|]. simpl.
  destruct (is_space c) eqn:E; [exact IH|done].
Qed.

Lemma lstrip_chars_fixed l :
  match l with [] => True | c :: _ => is_space c = false end →
  lstrip_chars l = l.
Proof. destruct l as [|c l]; [done|]. simpl. by intros ->. Qed.

Lemma lstrip_chars_suffix l : ∃ p, l = p ++ lstrip_chars l.
Proof.
  induction l as [|c l [p IH]]; [by exists []|]. simpl.
  destruct (is_space c); [|by exists []].
  exists (c :: p). simpl. by rewrite <- IH.
Qed.

Lemma lstrip_chars_In c l : In c (lstrip_chars l) → In c l.
Proof.
  destruct (lstrip_chars_suffix l) as [p Hp]. intros H. rewrite Hp.
  apply in_or_app. by right.
Qed.

Lemma strip_chars s :
  list_ascii_of_string (strip s)
  = rev (lstrip_chars (rev (lstrip_chars (list_ascii_of_string s)))).
Proof. unfold strip. apply list_ascii_of_string_of_list_ascii. Qed.

Lemma strip_idempotent s : strip (strip s) = strip s.
Proof.
  unfold strip at 1. rewrite strip_chars.
  set (k := lstrip_chars (list_ascii_of_string s)).
  set (m := lstrip_chars (rev k)).
  assert (Hm : lstrip_chars m = m) by apply lstrip_chars_fixed, lstrip_chars_head.
  assert (Hrev : lstrip_chars (rev m) = rev m).
  { apply lstrip_chars_fixed.
    destruct (lstrip_chars_suffix (rev k)) as [p Hp]. fold m in Hp.
    apply (f_equal (@rev ascii)) in Hp. rewrite rev_involutive, rev_app_distr in Hp.
    pose proof (lstrip_chars_head (list_ascii_of_string s)) as Hk. fold k in Hk.
    destruct (rev m) as [|c r]; [done|]. rewrite Hp in Hk. exact Hk. }
  rewrite Hrev, rev_involutive, Hm.
  unfold strip. by fold k m.
Qed.

Lemma strip_In c s :
  In c (list_ascii_of_string (strip s)) → In c (list_ascii_of_string s).
Proof.
  rewrite strip_chars. intros H. apply in_rev in H.
  apply lstrip_chars_In in H. apply in_rev in H. by apply lstrip_chars_In in H.
Qed.

Lemma split_plus_no_plus cur l part :
  ¬ In "+"%char cur → In part (split_plus cur l) →
  ¬ In "+"%char (list_ascii_of_string part).
Proof.
  revert cur. induction l as [|c l IH]; intros cur Hcur; simpl.
  - intros [<-|[]]. rewrite list_ascii_of_string_of_list_ascii.
    intros H. apply Hcur. by apply in_rev.
  - destruct (Ascii.eqb_spec c "+"%char) as [->|Hne].
    + intros [<-|H].
      * rewrite list_ascii_of_string_of_list_ascii.
        intros H. apply Hcur. by apply in_rev.
      * apply (IH []); [by intros []|done].
    + apply IH. intros [->|H]; [done|by apply Hcur].
Qed.

(** Property X27. The keys [parse_hotkey_sequence] returns are not empty,
    neither start nor end with white space, hold no plus sign and are made
    of characters of the text; the empty text gives no key. *)
Theorem parse_hotkey_sequence_keys (text : string) :
  Forall (λ key, key ≠ "" ∧ strip key = key
                 ∧ ¬ In "+"%char (list_ascii_of_string key)
                 ∧ ∀ c, In c (list_ascii_of_string key)
                        → In c (list_ascii_of_string text))
    (parse_hotkey_sequence text)
  ∧ parse_hotkey_sequence "" = [].
Proof.
  split; [|done]. unfold parse_hotkey_sequence.
  destruct (negb (str_truthy text)); [done|].
  apply Forall_forall. intros key [Hkey [part [-> Hpart]]%list_elem_of_fmap]%list_elem_of_filter.
  apply list_elem_of_In in Hpart.
  split; [by apply str_truthy_true|]. split; [apply strip_idempotent|].
  split.
  - intros H. apply strip_In in H.
    apply (split_plus_no_plus [] (list_ascii_of_string text) part);
      [by intros []|done|done].
  - intros c Hc. apply strip_In in Hc. revert Hc Hpart.
    assert (Hgen : ∀ l cur part, In part (split_plus cur l) →
              In c (list_ascii_of_string part) → In c (cur ++ l) ).
    { induction l as [|x l IH]; intros cur p; simpl.
      - intros [<-|[]]. rewrite list_ascii_of_string_of_list_ascii, app_nil_r.
        intros H. by apply in_rev.
      - destruct (Ascii.eqb x "+"%char).
        + intros [<-|H] Hin.
          * rewrite list_ascii_of_string_of_list_ascii in Hin.
            apply in_or_app. left. by apply in_rev.
          * specialize (IH [] p H Hin). simpl in IH.
            apply in_or_app. right. by right.
        + intros H Hin. specialize (IH (x :: cur) p H Hin).
          simpl in IH. destruct IH as [->|IH].
          * apply in_or_app. right. by left.
          * apply in_app_or in IH as [IH|IH]; apply in_or_app;
              [by left|right; by right]. }
    intros Hc Hpart. by apply (Hgen _ [] part).
Qed.
